(** * Porter application specifications: canonicalization of porter.yaml (Go,
      package v2) and the dashboard's form model (TypeScript, lib/porter-apps).

    The development embeds

    - the generated contract types of [porterv1] that the sources build
      ([PorterApp], [Service], the [Config] oneof, ...),
    - [AppProtoFromYaml], [protoEnumFromType] and [serviceProtoFromConfig]
      of the porter.yaml v2 parser,
    - [clientAppToProto], [clientAppFromProto], [clientBuildToProto] and
      [clientBuildFromProto] of the dashboard,

    and proves properties of them. *)

From Stdlib Require Import ZArith String Ascii List Bool.
From stdpp Require Import base option list strings gmap fin_maps pretty.

Local Open Scope Z_scope.
Local Open Scope string_scope.

(** ** Go values *)

(** A Go [float32] is only ever copied by the embedded code; it is kept as
    its IEEE-754 single precision bit pattern. *)
Definition float32 := Z.

(** [0.1] as a [float32]: 0x3DCCCCCD. *)
Definition float32_0_1 : float32 := 1036831949.

(** Go's conversion [int32(x)] of an [int]: the low 32 bits, read as a
    two's complement number. *)
Definition int32 (x : Z) : Z := (x + 2 ^ 31) mod 2 ^ 32 - 2 ^ 31.

(** ** Errors *)

(** [errors.New msg], [fmt.Errorf format arg] with one [%s] verb, and
    [telemetry.Error ctx span cause msg], which records the message on the
    span and wraps the cause; [nil_error] is the cause [nil] that the
    sources pass where there is no underlying error. *)
Inductive error : Type :=
| nil_error
| errors_New (msg : string)
| fmt_Errorf (format : string) (arg : string)
| telemetry_Error (cause : error) (msg : string).

Inductive result (A : Type) : Type :=
| Ok (a : A)
| Err (e : error).
Arguments Ok {A} a.
Arguments Err {A} e.

Definition bind {A B} (r : result A) (k : A -> result B) : result B :=
  match r with
  | Ok a => k a
  | Err e => Err e
  end.

(** [wrap msg r]: the idiom
    [if err != nil { return nil, telemetry.Error(ctx, span, err, msg) }]. *)
Definition wrap {A} (msg : string) (r : result A) : result A :=
  match r with
  | Ok a => Ok a
  | Err e => Err (telemetry_Error e msg)
  end.

Definition is_Ok {A} (r : result A) : bool :=
  match r with Ok _ => true | Err _ => false end.

Definition ok_of {A} (r : result A) : option A :=
  match r with Ok a => Some a | Err _ => None end.

#[global] Instance result_ret : MRet result := fun A a => Ok a.
#[global] Instance result_bind : MBind result := fun A B k r => bind r k.

(** ** strings.Contains *)

(** [has_prefix s p]: [p] is a prefix of [s] ([strings.HasPrefix]). *)
Fixpoint has_prefix (s p : string) {struct p} : bool :=
  match p, s with
  | EmptyString, _ => true
  | String _ _, EmptyString => false
  | String b p', String a s' => if Ascii.eqb a b then has_prefix s' p' else false
  end.

(** [strings.Contains s substr]: [substr] occurs within [s]. *)
Fixpoint strings_Contains (s substr : string) : bool :=
  has_prefix s substr ||
  match s with
  | EmptyString => false
  | String _ s' => strings_Contains s' substr
  end.

(** ** The contract types (package porterv1) *)

Module porterv1.

(** The enum [ServiceType] is an [int32]; a Go variable of that type can
    hold any number, which is what the [default] case of a switch sees. *)
Definition ServiceType := Z.
Definition ServiceType_SERVICE_TYPE_UNSPECIFIED : ServiceType := 0.
Definition ServiceType_SERVICE_TYPE_WEB : ServiceType := 1.
Definition ServiceType_SERVICE_TYPE_WORKER : ServiceType := 2.
Definition ServiceType_SERVICE_TYPE_JOB : ServiceType := 3.

(** The [String] method of the enum, used by the [%s] verb. *)
Definition ServiceType_String (t : ServiceType) : string :=
  if Z.eqb t 0 then "SERVICE_TYPE_UNSPECIFIED"
  else if Z.eqb t 1 then "SERVICE_TYPE_WEB"
  else if Z.eqb t 2 then "SERVICE_TYPE_WORKER"
  else if Z.eqb t 3 then "SERVICE_TYPE_JOB"
  else pretty (t : Z).

Record Autoscaling := {
  Autoscaling_Enabled : bool;
  Autoscaling_MinInstances : Z;
  Autoscaling_MaxInstances : Z;
  Autoscaling_CpuThresholdPercent : Z;
  Autoscaling_MemoryThresholdPercent : Z }.

Record HealthCheck := {
  HealthCheck_Enabled : bool;
  HealthCheck_HttpPath : string }.

Record Domain := { Domain_Name : string }.

Record WebServiceConfig := {
  WebServiceConfig_Autoscaling : option Autoscaling;
  WebServiceConfig_Domains : list Domain;
  WebServiceConfig_HealthCheck : option HealthCheck }.

Record WorkerServiceConfig := {
  WorkerServiceConfig_Autoscaling : option Autoscaling }.

Record JobServiceConfig := {
  JobServiceConfig_AllowConcurrent : bool;
  JobServiceConfig_Cron : string }.

(** The oneof [Service.Config] with its three wrappers. *)
Inductive isService_Config :=
| Service_WebConfig (WebConfig : WebServiceConfig)
| Service_WorkerConfig (WorkerConfig : WorkerServiceConfig)
| Service_JobConfig (JobConfig : JobServiceConfig).

Record Service := {
  Service_Run : string;
  Service_Type : ServiceType;
  Service_Instances : Z;
  Service_CpuCores : float32;
  Service_RamMegabytes : Z;
  Service_Port : Z;
  Service_Config : option isService_Config }.

Record Build := {
  Build_Context : string;
  Build_Method : string;
  Build_Builder : string;
  Build_Buildpacks : list string;
  Build_Dockerfile : string }.

Record AppImage := {
  AppImage_Repository : string;
  AppImage_Tag : string }.

Record PorterApp := {
  PorterApp_Name : string;
  PorterApp_Env : gmap string string;
  PorterApp_Build : option Build;
  PorterApp_Image : option AppImage;
  PorterApp_Services : gmap string Service;
  PorterApp_Predeploy : option Service }.

End porterv1.

(** ** The porter.yaml parser (package v2) *)

Module v2.

(** AutoScaling represents the autoscaling settings for web services *)
Record AutoScaling := {
  AutoScaling_Enabled : bool;
  AutoScaling_MinInstances : Z;
  AutoScaling_MaxInstances : Z;
  AutoScaling_CpuThresholdPercent : Z;
  AutoScaling_MemoryThresholdPercent : Z }.

(** Domains are the custom domains for a web service *)
Record Domains := { Domains_Name : string }.

(** HealthCheck is the health check settings for a web service *)
Record HealthCheck := {
  HealthCheck_Enabled : bool;
  HealthCheck_HttpPath : string }.

(** Image is the repository and tag for an app's build image *)
Record Image := {
  Image_Repository : string;
  Image_Tag : string }.

(** Build represents the build settings for a Porter app *)
Record Build := {
  Build_Context : string;
  Build_Method : string;
  Build_Builder : string;
  Build_Buildpacks : list string;
  Build_Dockerfile : string }.

(** Service represents a single service in a porter app.  A key that the
    document leaves out keeps the field's zero value: the empty string,
    0, false, a nil pointer ([None]) or a nil slice ([[]]). *)
Record Service := {
  Service_Run : string;
  Service_Type : string;
  Service_Instances : Z;
  Service_CpuCores : float32;
  Service_RamMegabytes : Z;
  Service_Port : Z;
  Service_Autoscaling : option AutoScaling;
  Service_Domains : list Domains;
  Service_HealthCheck : option HealthCheck;
  Service_AllowConcurrent : bool;
  Service_Cron : string }.

(** PorterYAML represents all the possible fields in a Porter YAML file.
    [Services] is a Go map that is tested against [nil]: [None] is the nil
    map.  [Env] is only copied; a nil map and an empty map are the same
    contract value. *)
Record PorterYAML := {
  PorterYAML_Name : string;
  PorterYAML_Services : option (gmap string Service);
  PorterYAML_Image : option Image;
  PorterYAML_Build : option Build;
  PorterYAML_Env : gmap string string;
  PorterYAML_Predeploy : option Service }.

Definition protoEnumFromType (name : string) (service : Service)
  : result porterv1.ServiceType :=
  let serviceType := porterv1.ServiceType_SERVICE_TYPE_UNSPECIFIED in
  if negb (String.eqb (Service_Type service) "") then
    if String.eqb (Service_Type service) "web" then
      Ok porterv1.ServiceType_SERVICE_TYPE_WEB
    else if String.eqb (Service_Type service) "worker" then
      Ok porterv1.ServiceType_SERVICE_TYPE_WORKER
    else if String.eqb (Service_Type service) "job" then
      Ok porterv1.ServiceType_SERVICE_TYPE_JOB
    else Err (fmt_Errorf "invalid service type '%s'" (Service_Type service))
  else if strings_Contains name "web" then
    Ok porterv1.ServiceType_SERVICE_TYPE_WEB
  else if strings_Contains name "wkr" then
    Ok porterv1.ServiceType_SERVICE_TYPE_WORKER
  else if strings_Contains name "job" then
    Ok porterv1.ServiceType_SERVICE_TYPE_JOB
  else
    Err (errors_New "no type provided and could not parse service type from name").

(** The [porterv1.Autoscaling] built from the [autoscaling] block, in the
    web and in the worker case alike. *)
Definition autoscalingProto (a : option AutoScaling) : option porterv1.Autoscaling :=
  match a with
  | None => None
  | Some a =>
      Some {| porterv1.Autoscaling_Enabled := AutoScaling_Enabled a;
              porterv1.Autoscaling_MinInstances := int32 (AutoScaling_MinInstances a);
              porterv1.Autoscaling_MaxInstances := int32 (AutoScaling_MaxInstances a);
              porterv1.Autoscaling_CpuThresholdPercent :=
                int32 (AutoScaling_CpuThresholdPercent a);
              porterv1.Autoscaling_MemoryThresholdPercent :=
                int32 (AutoScaling_MemoryThresholdPercent a) |}
  end.

Definition healthCheckProto (h : option HealthCheck) : option porterv1.HealthCheck :=
  match h with
  | None => None
  | Some h =>
      Some {| porterv1.HealthCheck_Enabled := HealthCheck_Enabled h;
              porterv1.HealthCheck_HttpPath := HealthCheck_HttpPath h |}
  end.

Definition serviceProtoFromConfig (service : Service)
    (serviceType : porterv1.ServiceType) : result porterv1.Service :=
  let serviceProto (config : porterv1.isService_Config) :=
    {| porterv1.Service_Run := Service_Run service;
       porterv1.Service_Type := serviceType;
       porterv1.Service_Instances := int32 (Service_Instances service);
       porterv1.Service_CpuCores := Service_CpuCores service;
       porterv1.Service_RamMegabytes := int32 (Service_RamMegabytes service);
       porterv1.Service_Port := int32 (Service_Port service);
       porterv1.Service_Config := Some config |} in
  if Z.eqb serviceType porterv1.ServiceType_SERVICE_TYPE_UNSPECIFIED then
    Err (errors_New "Service type unspecified")
  else if Z.eqb serviceType porterv1.ServiceType_SERVICE_TYPE_WEB then
    let webConfig :=
      {| porterv1.WebServiceConfig_Autoscaling :=
           autoscalingProto (Service_Autoscaling service);
         porterv1.WebServiceConfig_HealthCheck :=
           healthCheckProto (Service_HealthCheck service);
         porterv1.WebServiceConfig_Domains :=
           foldl (fun domains domain =>
                    (domains ++ [ {| porterv1.Domain_Name := Domains_Name domain |} ])%list)
                 [] (Service_Domains service) |} in
    Ok (serviceProto (porterv1.Service_WebConfig webConfig))
  else if Z.eqb serviceType porterv1.ServiceType_SERVICE_TYPE_WORKER then
    let workerConfig :=
      {| porterv1.WorkerServiceConfig_Autoscaling :=
           autoscalingProto (Service_Autoscaling service) |} in
    Ok (serviceProto (porterv1.Service_WorkerConfig workerConfig))
  else if Z.eqb serviceType porterv1.ServiceType_SERVICE_TYPE_JOB then
    let jobConfig :=
      {| porterv1.JobServiceConfig_AllowConcurrent := Service_AllowConcurrent service;
         porterv1.JobServiceConfig_Cron := Service_Cron service |} in
    Ok (serviceProto (porterv1.Service_JobConfig jobConfig))
  else
    Err (fmt_Errorf "invalid service type '%s'" (porterv1.ServiceType_String serviceType)).

(** One turn of the loop over [porterYaml.Services]. *)
Definition serviceFromYaml (name : string) (service : Service)
  : result porterv1.Service :=
  serviceType ← wrap "error getting service type" (protoEnumFromType name service);
  wrap "error casting service config" (serviceProtoFromConfig service serviceType).

(** The loop [for name, service := range porterYaml.Services]: it returns
    at the first service that fails, and otherwise fills the map
    [services].  Go leaves the order of the iteration open; the fold
    visits the entries in the order [map_fold] has. *)
Definition servicesFromYaml (services : gmap string Service)
  : result (gmap string porterv1.Service) :=
  map_fold (fun name service acc =>
              out ← acc;
              serviceProto ← serviceFromYaml name service;
              Ok (<[name := serviceProto]> out))
           (Ok ∅) services.

(** [AppProtoFromYaml] from the unmarshalled document on. *)
Definition appProtoFromPorterYAML (porterYaml : PorterYAML) : result porterv1.PorterApp :=
  let Build :=
    match PorterYAML_Build porterYaml with
    | Some b =>
        Some {| porterv1.Build_Context := Build_Context b;
                porterv1.Build_Method := Build_Method b;
                porterv1.Build_Builder := Build_Builder b;
                porterv1.Build_Buildpacks := Build_Buildpacks b;
                porterv1.Build_Dockerfile := Build_Dockerfile b |}
    | None => None
    end in
  let Image :=
    match PorterYAML_Image porterYaml with
    | Some i =>
        Some {| porterv1.AppImage_Repository := Image_Repository i;
                porterv1.AppImage_Tag := Image_Tag i |}
    | None => None
    end in
  match PorterYAML_Services porterYaml with
  | None => Err (telemetry_Error nil_error "porter yaml is missing services")
  | Some yamlServices =>
      services ← servicesFromYaml yamlServices;
      Predeploy ←
        match PorterYAML_Predeploy porterYaml with
        | Some predeploy =>
            predeployProto ←
              wrap "error casting predeploy config"
                   (serviceProtoFromConfig predeploy porterv1.ServiceType_SERVICE_TYPE_JOB);
            Ok (Some predeployProto)
        | None => Ok None
        end;
      Ok {| porterv1.PorterApp_Name := PorterYAML_Name porterYaml;
            porterv1.PorterApp_Env := PorterYAML_Env porterYaml;
            porterv1.PorterApp_Build := Build;
            porterv1.PorterApp_Image := Image;
            porterv1.PorterApp_Services := services;
            porterv1.PorterApp_Predeploy := Predeploy |}
  end.

Section AppProtoFromYaml.

(** [yaml.Unmarshal] of github.com/ghodss/yaml into a [PorterYAML]: an
    error on a document that is not well-formed, the filled struct
    otherwise. *)
Variable yaml_Unmarshal : list Byte.byte -> result PorterYAML.

(** AppProtoFromYaml converts a Porter YAML file into a PorterApp proto
    object.  [None] is the nil slice. *)
Definition AppProtoFromYaml (porterYamlBytes : option (list Byte.byte))
  : result porterv1.PorterApp :=
  match porterYamlBytes with
  | None => Err (telemetry_Error nil_error "porter yaml is nil")
  | Some bytes =>
      porterYaml ← wrap "error unmarshaling porter yaml" (yaml_Unmarshal bytes);
      appProtoFromPorterYAML porterYaml
  end.

End AppProtoFromYaml.

End v2.

(** ** The test document testdata/v2_input_nobuild.yaml *)

Module testdata.
Import v2.

Definition zero_Service : Service :=
  {| Service_Run := ""; Service_Type := ""; Service_Instances := 0;
     Service_CpuCores := 0; Service_RamMegabytes := 0; Service_Port := 0;
     Service_Autoscaling := None; Service_Domains := [];
     Service_HealthCheck := None; Service_AllowConcurrent := false;
     Service_Cron := "" |}.

Definition example_web : Service :=
  {| Service_Run := "node index.js"; Service_Type := "web";
     Service_Instances := 0; Service_CpuCores := float32_0_1;
     Service_RamMegabytes := 256; Service_Port := 8080;
     Service_Autoscaling :=
       Some {| AutoScaling_Enabled := true;
               AutoScaling_MinInstances := 1;
               AutoScaling_MaxInstances := 3;
               AutoScaling_CpuThresholdPercent := 60;
               AutoScaling_MemoryThresholdPercent := 60 |};
     Service_Domains :=
       [ {| Domains_Name := "test1.example.com" |};
         {| Domains_Name := "test2.example.com" |} ];
     Service_HealthCheck :=
       Some {| HealthCheck_Enabled := true; HealthCheck_HttpPath := "/healthz" |};
     Service_AllowConcurrent := false; Service_Cron := "" |}.

Definition example_wkr : Service :=
  {| Service_Run := "echo 'work'"; Service_Type := "worker";
     Service_Instances := 1; Service_CpuCores := float32_0_1;
     Service_RamMegabytes := 256; Service_Port := 80;
     Service_Autoscaling := None; Service_Domains := [];
     Service_HealthCheck := None; Service_AllowConcurrent := false;
     Service_Cron := "" |}.

Definition example_job : Service :=
  {| Service_Run := "echo 'hello world'"; Service_Type := "job";
     Service_Instances := 0; Service_CpuCores := float32_0_1;
     Service_RamMegabytes := 256; Service_Port := 0;
     Service_Autoscaling := None; Service_Domains := [];
     Service_HealthCheck := None; Service_AllowConcurrent := true;
     Service_Cron := "*/10 * * * *" |}.

Definition predeploy : Service :=
  {| Service_Run := "ls"; Service_Type := "job";
     Service_Instances := 0; Service_CpuCores := 0;
     Service_RamMegabytes := 0; Service_Port := 0;
     Service_Autoscaling := None; Service_Domains := [];
     Service_HealthCheck := None; Service_AllowConcurrent := false;
     Service_Cron := "" |}.

(** The struct that unmarshalling v2_input_nobuild.yaml fills. *)
Definition v2_input_nobuild : PorterYAML :=
  {| PorterYAML_Name := "js-test-app";
     PorterYAML_Services :=
       Some (<["example-web" := example_web]>
             (<["example-wkr" := example_wkr]>
              (<["example-job" := example_job]> ∅)));
     PorterYAML_Image := Some {| Image_Repository := "nginx"; Image_Tag := "latest" |};
     PorterYAML_Build := None;
     PorterYAML_Env := <["PORT" := "8080"]> (<["NODE_ENV" := "production"]> ∅);
     PorterYAML_Predeploy := Some predeploy |}.

(** [result_nobuild] of parse_test.go, the canonical specification that
    the test expects for the document.  The test writes the predeploy
    config as an empty [Service_JobConfig] wrapper and compares the JSON
    renderings, in which a job config with no field set is the same. *)
Definition result_example_web : porterv1.Service :=
  {| porterv1.Service_Run := "node index.js";
     porterv1.Service_Instances := 0;
     porterv1.Service_Port := 8080;
     porterv1.Service_CpuCores := float32_0_1;
     porterv1.Service_RamMegabytes := 256;
     porterv1.Service_Config :=
       Some (porterv1.Service_WebConfig
         {| porterv1.WebServiceConfig_Autoscaling :=
              Some {| porterv1.Autoscaling_Enabled := true;
                      porterv1.Autoscaling_MinInstances := 1;
                      porterv1.Autoscaling_MaxInstances := 3;
                      porterv1.Autoscaling_CpuThresholdPercent := 60;
                      porterv1.Autoscaling_MemoryThresholdPercent := 60 |};
            porterv1.WebServiceConfig_Domains :=
              [ {| porterv1.Domain_Name := "test1.example.com" |};
                {| porterv1.Domain_Name := "test2.example.com" |} ];
            porterv1.WebServiceConfig_HealthCheck :=
              Some {| porterv1.HealthCheck_Enabled := true;
                      porterv1.HealthCheck_HttpPath := "/healthz" |} |});
     porterv1.Service_Type := 1 |}.

Definition result_example_wkr : porterv1.Service :=
  {| porterv1.Service_Run := "echo 'work'";
     porterv1.Service_Instances := 1;
     porterv1.Service_Port := 80;
     porterv1.Service_CpuCores := float32_0_1;
     porterv1.Service_RamMegabytes := 256;
     porterv1.Service_Config :=
       Some (porterv1.Service_WorkerConfig
         {| porterv1.WorkerServiceConfig_Autoscaling := None |});
     porterv1.Service_Type := 2 |}.

Definition result_example_job : porterv1.Service :=
  {| porterv1.Service_Run := "echo 'hello world'";
     porterv1.Service_Instances := 0;
     porterv1.Service_Port := 0;
     porterv1.Service_CpuCores := float32_0_1;
     porterv1.Service_RamMegabytes := 256;
     porterv1.Service_Config :=
       Some (porterv1.Service_JobConfig
         {| porterv1.JobServiceConfig_AllowConcurrent := true;
            porterv1.JobServiceConfig_Cron := "*/10 * * * *" |});
     porterv1.Service_Type := 3 |}.

Definition result_predeploy : porterv1.Service :=
  {| porterv1.Service_Run := "ls";
     porterv1.Service_Instances := 0;
     porterv1.Service_Port := 0;
     porterv1.Service_CpuCores := 0;
     porterv1.Service_RamMegabytes := 0;
     porterv1.Service_Config :=
       Some (porterv1.Service_JobConfig
         {| porterv1.JobServiceConfig_AllowConcurrent := false;
            porterv1.JobServiceConfig_Cron := "" |});
     porterv1.Service_Type := 3 |}.

Definition result_nobuild : porterv1.PorterApp :=
  {| porterv1.PorterApp_Name := "js-test-app";
     porterv1.PorterApp_Services :=
       <["example-job" := result_example_job]>
       (<["example-wkr" := result_example_wkr]>
        (<["example-web" := result_example_web]> ∅));
     porterv1.PorterApp_Env := <["PORT" := "8080"]> (<["NODE_ENV" := "production"]> ∅);
     porterv1.PorterApp_Predeploy := Some result_predeploy;
     porterv1.PorterApp_Image :=
       Some {| porterv1.AppImage_Repository := "nginx";
               porterv1.AppImage_Tag := "latest" |};
     porterv1.PorterApp_Build := None |}.

(** A web service that also sets the two job keys, [cron] and
    [allowConcurrent]. *)
Definition web_with_cron : Service :=
  {| Service_Run := "node index.js"; Service_Type := "web";
     Service_Instances := 0; Service_CpuCores := float32_0_1;
     Service_RamMegabytes := 256; Service_Port := 8080;
     Service_Autoscaling := None; Service_Domains := [];
     Service_HealthCheck := None; Service_AllowConcurrent := true;
     Service_Cron := "*/5 * * * *" |}.

(** The same web service without the job keys. *)
Definition web_without_cron : Service :=
  {| Service_Run := "node index.js"; Service_Type := "web";
     Service_Instances := 0; Service_CpuCores := float32_0_1;
     Service_RamMegabytes := 256; Service_Port := 8080;
     Service_Autoscaling := None; Service_Domains := [];
     Service_HealthCheck := None; Service_AllowConcurrent := false;
     Service_Cron := "" |}.

(** A job that also sets the web keys [domains], [healthCheck] and
    [autoscaling]. *)
Definition job_with_domains : Service :=
  {| Service_Run := "echo 'hello world'"; Service_Type := "job";
     Service_Instances := 0; Service_CpuCores := float32_0_1;
     Service_RamMegabytes := 256; Service_Port := 0;
     Service_Autoscaling :=
       Some {| AutoScaling_Enabled := true;
               AutoScaling_MinInstances := 1;
               AutoScaling_MaxInstances := 3;
               AutoScaling_CpuThresholdPercent := 60;
               AutoScaling_MemoryThresholdPercent := 60 |};
     Service_Domains := [ {| Domains_Name := "test1.example.com" |} ];
     Service_HealthCheck :=
       Some {| HealthCheck_Enabled := true; HealthCheck_HttpPath := "/healthz" |};
     Service_AllowConcurrent := true;
     Service_Cron := "*/10 * * * *" |}.

Definition pack_build : Build :=
  {| Build_Context := "./"; Build_Method := "pack";
     Build_Builder := "heroku/buildpacks:20"; Build_Buildpacks := [];
     Build_Dockerfile := "" |}.

(** A document with both a [build] and an [image] key. *)
Definition build_and_image : PorterYAML :=
  {| PorterYAML_Name := "js-test-app";
     PorterYAML_Services := Some (<["example-wkr" := example_wkr]> ∅);
     PorterYAML_Image := Some {| Image_Repository := "nginx"; Image_Tag := "latest" |};
     PorterYAML_Build := Some pack_build;
     PorterYAML_Env := ∅;
     PorterYAML_Predeploy := None |}.

(** A document with neither a [build] nor an [image] key. *)
Definition no_build_no_image : PorterYAML :=
  {| PorterYAML_Name := "js-test-app";
     PorterYAML_Services := Some (<["example-wkr" := example_wkr]> ∅);
     PorterYAML_Image := None;
     PorterYAML_Build := None;
     PorterYAML_Env := ∅;
     PorterYAML_Predeploy := None |}.

(** A document without the [name] key: the field keeps the empty
    string. *)
Definition no_name : PorterYAML :=
  {| PorterYAML_Name := "";
     PorterYAML_Services := Some (<["example-wkr" := example_wkr]> ∅);
     PorterYAML_Image := Some {| Image_Repository := "nginx"; Image_Tag := "latest" |};
     PorterYAML_Build := None;
     PorterYAML_Env := ∅;
     PorterYAML_Predeploy := None |}.

(** A document without the [services] key. *)
Definition no_services : PorterYAML :=
  {| PorterYAML_Name := "js-test-app";
     PorterYAML_Services := None;
     PorterYAML_Image := Some {| Image_Repository := "nginx"; Image_Tag := "latest" |};
     PorterYAML_Build := None;
     PorterYAML_Env := ∅;
     PorterYAML_Predeploy := None |}.

(** A stand-in for the YAML library in the examples: it reads the empty
    input as [no_services], the one byte [n] as [no_name], and rejects
    everything else as malformed. *)
Definition example_Unmarshal (bytes : list Byte.byte) : result PorterYAML :=
  match bytes with
  | [] => Ok no_services
  | [Byte.x6e] => Ok no_name
  | _ => Err (errors_New "yaml: did not find expected node content")
  end.
End testdata.


(** ** The dashboard's service model (lib/porter-apps/services) *)

Module services.

(** A form field as the tabs read it ([value.value], [value.readOnly]):
    the value and whether the field is owned by the source document. *)
Record ServiceField (T : Type) := {
  readOnly : bool;
  value : T }.
Arguments readOnly {T} _.
Arguments value {T} _.

(** The [config.type] tag of a service in the form. *)
Inductive ClientServiceType := type_web | type_worker | type_job | type_predeploy.

#[global] Instance ClientServiceType_eq_dec : EqDecision ClientServiceType.
Proof. solve_decision. Defined.

(** Modelled from the spec: the origin tag of a service of the client
    model, [{detectedFromSource, userAdded}]. *)
Inductive Origin := detectedFromSource | userAdded.

(** Modelled from the spec: the bare values of a service, without
    provenance.  The type SerializedService is missing from the sources;
    the fields are those of the spec's ServiceSpec, the autoscaling and
    health check blocks with their defaults when absent, and the config
    variants are those of [config.type], with the variant [predeploy] of
    the fixed-name predeploy slot that has no field of its own. *)
Record SerializedAutoscaling := {
  Serialized_enabled : bool;
  Serialized_minInstances : Z;
  Serialized_maxInstances : Z;
  Serialized_cpuThresholdPercent : Z;
  Serialized_memoryThresholdPercent : Z }.

Record SerializedHealthCheck := {
  Serialized_healthCheck_enabled : bool;
  Serialized_httpPath : string }.

Inductive SerializedConfig :=
| Serialized_web (autoscaling : SerializedAutoscaling)
    (healthCheck : SerializedHealthCheck) (domains : list string)
| Serialized_worker (autoscaling : SerializedAutoscaling)
| Serialized_job (allowConcurrent : bool) (cron : string)
| Serialized_predeploy.

Record SerializedService := {
  Serialized_name : string;
  Serialized_run : string;
  Serialized_instances : Z;
  Serialized_port : Z;
  Serialized_cpuCores : float32;
  Serialized_ramMegabytes : Z;
  Serialized_config : SerializedConfig;
  Serialized_origin : Origin }.

(** Modelled from the spec: the form state of a service, "the form-state
    projection where every leaf scalar is a FieldProvenance, plus an
    origin tag per service".  The type ClientService is missing from the
    sources, which read [name.value], [config.type] and
    [config.allowConcurrent] of it. *)
Record ClientAutoscaling := {
  Client_enabled : ServiceField bool;
  Client_minInstances : ServiceField Z;
  Client_maxInstances : ServiceField Z;
  Client_cpuThresholdPercent : ServiceField Z;
  Client_memoryThresholdPercent : ServiceField Z }.

Record ClientHealthCheck := {
  Client_healthCheck_enabled : ServiceField bool;
  Client_httpPath : ServiceField string }.

Inductive ClientConfig :=
| Client_web (autoscaling : ClientAutoscaling)
    (healthCheck : ClientHealthCheck) (domains : list (ServiceField string))
| Client_worker (autoscaling : ClientAutoscaling)
| Client_job (allowConcurrent : ServiceField bool) (cron : ServiceField string)
| Client_predeploy.

Record ClientService := {
  Client_name : ServiceField string;
  Client_run : ServiceField string;
  Client_instances : ServiceField Z;
  Client_port : ServiceField Z;
  Client_cpuCores : ServiceField float32;
  Client_ramMegabytes : ServiceField Z;
  Client_config : ClientConfig;
  Client_origin : Origin }.

(** The services that a porter.yaml declares, as [clientAppFromProto]
    reads them: [overrides.services] and [overrides.predeploy]. *)
Record DetectedServices := {
  DetectedServices_services : list ClientService;
  DetectedServices_predeploy : option ClientService }.

Definition Serialized_type (c : SerializedConfig) : ClientServiceType :=
  match c with
  | Serialized_web _ _ _ => type_web
  | Serialized_worker _ => type_worker
  | Serialized_job _ _ => type_job
  | Serialized_predeploy => type_predeploy
  end.

Definition Client_type (c : ClientConfig) : ClientServiceType :=
  match c with
  | Client_web _ _ _ => type_web
  | Client_worker _ => type_worker
  | Client_job _ _ => type_job
  | Client_predeploy => type_predeploy
  end.

(** Modelled from the spec: isPredeployService is missing from the
    sources; the predeploy slot is the service whose [config.type] is
    [predeploy]. *)
Definition isPredeployService (s : ClientService) : bool :=
  bool_decide (Client_type (Client_config s) = type_predeploy).

(** Modelled from the spec: serializeService is missing from the sources;
    it "unwraps every FieldProvenance to its bare value". *)
Definition serializeAutoscaling (a : ClientAutoscaling) : SerializedAutoscaling :=
  {| Serialized_enabled := value (Client_enabled a);
     Serialized_minInstances := value (Client_minInstances a);
     Serialized_maxInstances := value (Client_maxInstances a);
     Serialized_cpuThresholdPercent := value (Client_cpuThresholdPercent a);
     Serialized_memoryThresholdPercent := value (Client_memoryThresholdPercent a) |}.

Definition serializeHealthCheck (h : ClientHealthCheck) : SerializedHealthCheck :=
  {| Serialized_healthCheck_enabled := value (Client_healthCheck_enabled h);
     Serialized_httpPath := value (Client_httpPath h) |}.

Definition serializeConfig (c : ClientConfig) : SerializedConfig :=
  match c with
  | Client_web a h d =>
      Serialized_web (serializeAutoscaling a) (serializeHealthCheck h) (value <$> d)
  | Client_worker a => Serialized_worker (serializeAutoscaling a)
  | Client_job a c => Serialized_job (value a) (value c)
  | Client_predeploy => Serialized_predeploy
  end.

Definition serializeService (service : ClientService) : SerializedService :=
  {| Serialized_name := value (Client_name service);
     Serialized_run := value (Client_run service);
     Serialized_instances := value (Client_instances service);
     Serialized_port := value (Client_port service);
     Serialized_cpuCores := value (Client_cpuCores service);
     Serialized_ramMegabytes := value (Client_ramMegabytes service);
     Serialized_config := serializeConfig (Client_config service);
     Serialized_origin := Client_origin service |}.

(** Modelled from the spec: serializedServiceFromProto is missing from
    the sources; it reads the bare values of a service of the canonical
    specification under its name.  Absent blocks take the defaults of the
    spec (numbers zero, booleans false, lists empty); a service read from
    the specification has the origin [detectedFromSource].  The predeploy
    slot becomes the variant [predeploy]; any other service must carry
    one of the three config variants ([None]: it carries none, and the
    conversion throws). *)
Definition autoscalingFromProto (a : option porterv1.Autoscaling) : SerializedAutoscaling :=
  match a with
  | Some a =>
      {| Serialized_enabled := porterv1.Autoscaling_Enabled a;
         Serialized_minInstances := porterv1.Autoscaling_MinInstances a;
         Serialized_maxInstances := porterv1.Autoscaling_MaxInstances a;
         Serialized_cpuThresholdPercent := porterv1.Autoscaling_CpuThresholdPercent a;
         Serialized_memoryThresholdPercent := porterv1.Autoscaling_MemoryThresholdPercent a |}
  | None =>
      {| Serialized_enabled := false; Serialized_minInstances := 0;
         Serialized_maxInstances := 0; Serialized_cpuThresholdPercent := 0;
         Serialized_memoryThresholdPercent := 0 |}
  end.

Definition healthCheckFromProto (h : option porterv1.HealthCheck) : SerializedHealthCheck :=
  match h with
  | Some h =>
      {| Serialized_healthCheck_enabled := porterv1.HealthCheck_Enabled h;
         Serialized_httpPath := porterv1.HealthCheck_HttpPath h |}
  | None => {| Serialized_healthCheck_enabled := false; Serialized_httpPath := "" |}
  end.

Definition configFromProto (service : porterv1.Service) (isPredeploy : bool)
  : option SerializedConfig :=
  if isPredeploy then Some Serialized_predeploy
  else
    match porterv1.Service_Config service with
    | Some (porterv1.Service_WebConfig w) =>
        Some (Serialized_web
                (autoscalingFromProto (porterv1.WebServiceConfig_Autoscaling w))
                (healthCheckFromProto (porterv1.WebServiceConfig_HealthCheck w))
                (porterv1.Domain_Name <$> porterv1.WebServiceConfig_Domains w))
    | Some (porterv1.Service_WorkerConfig w) =>
        Some (Serialized_worker
                (autoscalingFromProto (porterv1.WorkerServiceConfig_Autoscaling w)))
    | Some (porterv1.Service_JobConfig j) =>
        Some (Serialized_job (porterv1.JobServiceConfig_AllowConcurrent j)
                             (porterv1.JobServiceConfig_Cron j))
    | None => None
    end.

Definition serializedServiceFromProto (name : string) (service : porterv1.Service)
    (isPredeploy : bool) : option SerializedService :=
  config ← configFromProto service isPredeploy;
  Some {| Serialized_name := name;
          Serialized_run := porterv1.Service_Run service;
          Serialized_instances := porterv1.Service_Instances service;
          Serialized_port := porterv1.Service_Port service;
          Serialized_cpuCores := porterv1.Service_CpuCores service;
          Serialized_ramMegabytes := porterv1.Service_RamMegabytes service;
          Serialized_config := config;
          Serialized_origin := detectedFromSource |}.

(** Modelled from the spec: serviceProto is missing from the sources; it
    is the way back from the bare values to a service of the canonical
    specification.  The predeploy slot is a service "of kind Job" with
    "no cron/concurrency fields set". *)
Definition autoscalingToProto (a : SerializedAutoscaling) : porterv1.Autoscaling :=
  {| porterv1.Autoscaling_Enabled := Serialized_enabled a;
     porterv1.Autoscaling_MinInstances := Serialized_minInstances a;
     porterv1.Autoscaling_MaxInstances := Serialized_maxInstances a;
     porterv1.Autoscaling_CpuThresholdPercent := Serialized_cpuThresholdPercent a;
     porterv1.Autoscaling_MemoryThresholdPercent := Serialized_memoryThresholdPercent a |}.

Definition healthCheckToProto (h : SerializedHealthCheck) : porterv1.HealthCheck :=
  {| porterv1.HealthCheck_Enabled := Serialized_healthCheck_enabled h;
     porterv1.HealthCheck_HttpPath := Serialized_httpPath h |}.

Definition serviceProto (service : SerializedService) : porterv1.Service :=
  let proto (type : porterv1.ServiceType) (config : porterv1.isService_Config) :=
    {| porterv1.Service_Run := Serialized_run service;
       porterv1.Service_Type := type;
       porterv1.Service_Instances := Serialized_instances service;
       porterv1.Service_CpuCores := Serialized_cpuCores service;
       porterv1.Service_RamMegabytes := Serialized_ramMegabytes service;
       porterv1.Service_Port := Serialized_port service;
       porterv1.Service_Config := Some config |} in
  match Serialized_config service with
  | Serialized_web a h d =>
      proto porterv1.ServiceType_SERVICE_TYPE_WEB
        (porterv1.Service_WebConfig
           {| porterv1.WebServiceConfig_Autoscaling := Some (autoscalingToProto a);
              porterv1.WebServiceConfig_Domains := porterv1.Build_Domain <$> d;
              porterv1.WebServiceConfig_HealthCheck := Some (healthCheckToProto h) |})
  | Serialized_worker a =>
      proto porterv1.ServiceType_SERVICE_TYPE_WORKER
        (porterv1.Service_WorkerConfig
           {| porterv1.WorkerServiceConfig_Autoscaling := Some (autoscalingToProto a) |})
  | Serialized_job a c =>
      proto porterv1.ServiceType_SERVICE_TYPE_JOB
        (porterv1.Service_JobConfig
           {| porterv1.JobServiceConfig_AllowConcurrent := a;
              porterv1.JobServiceConfig_Cron := c |})
  | Serialized_predeploy =>
      proto porterv1.ServiceType_SERVICE_TYPE_JOB
        (porterv1.Service_JobConfig
           {| porterv1.JobServiceConfig_AllowConcurrent := false;
              porterv1.JobServiceConfig_Cron := "" |})
  end.

Section deserializeService.

(** The spec names the fields that are source-locked but does not say
    which ones they are: [sourceLocked service path] stands for "the
    field at [path] of the freshly canonicalized [service] is owned by
    the declarative document". *)
Variable sourceLocked : SerializedService -> string -> bool.

(** Modelled from the spec: deserializeService is missing from the
    sources.  "If a prior override with the same name and same resolved
    kind exists, every field takes the override's value unless the
    field is sourceLocked; sourceLocked fields always take the
    freshly-canonicalized value regardless of prior override."  Without
    an override the fields are "seeded from the canonical spec".  The
    callers look the override up by its name; the name and the kind are
    compared here, and an override of another name or kind counts as no
    override. *)
Definition field {T} (service : SerializedService) (path : string)
    (canonical : T) (override : option T) : ServiceField T :=
  if sourceLocked service path
  then {| readOnly := true; value := canonical |}
  else {| readOnly := false; value := default canonical override |}.

Definition overrideAutoscaling (override : SerializedService)
  : option SerializedAutoscaling :=
  match Serialized_config override with
  | Serialized_web a _ _ | Serialized_worker a => Some a
  | _ => None
  end.

Definition overrideHealthCheck (override : SerializedService)
  : option SerializedHealthCheck :=
  match Serialized_config override with
  | Serialized_web _ h _ => Some h
  | _ => None
  end.

Definition overrideDomains (override : SerializedService) : option (list string) :=
  match Serialized_config override with
  | Serialized_web _ _ d => Some d
  | _ => None
  end.

Definition overrideAllowConcurrent (override : SerializedService) : option bool :=
  match Serialized_config override with
  | Serialized_job a _ => Some a
  | _ => None
  end.

Definition overrideCron (override : SerializedService) : option string :=
  match Serialized_config override with
  | Serialized_job _ c => Some c
  | _ => None
  end.

Definition deserializeAutoscaling (service : SerializedService)
    (autoscaling : SerializedAutoscaling) (override : option SerializedAutoscaling)
  : ClientAutoscaling :=
  {| Client_enabled :=
       field service "config.autoscaling.enabled"
             (Serialized_enabled autoscaling) (Serialized_enabled <$> override);
     Client_minInstances :=
       field service "config.autoscaling.minInstances"
             (Serialized_minInstances autoscaling) (Serialized_minInstances <$> override);
     Client_maxInstances :=
       field service "config.autoscaling.maxInstances"
             (Serialized_maxInstances autoscaling) (Serialized_maxInstances <$> override);
     Client_cpuThresholdPercent :=
       field service "config.autoscaling.cpuThresholdPercent"
             (Serialized_cpuThresholdPercent autoscaling)
             (Serialized_cpuThresholdPercent <$> override);
     Client_memoryThresholdPercent :=
       field service "config.autoscaling.memoryThresholdPercent"
             (Serialized_memoryThresholdPercent autoscaling)
             (Serialized_memoryThresholdPercent <$> override) |}.

Definition deserializeHealthCheck (service : SerializedService)
    (healthCheck : SerializedHealthCheck) (override : option SerializedHealthCheck)
  : ClientHealthCheck :=
  {| Client_healthCheck_enabled :=
       field service "config.healthCheck.enabled"
             (Serialized_healthCheck_enabled healthCheck)
             (Serialized_healthCheck_enabled <$> override);
     Client_httpPath :=
       field service "config.healthCheck.httpPath"
             (Serialized_httpPath healthCheck) (Serialized_httpPath <$> override) |}.

Definition deserializeDomains (service : SerializedService)
    (domains : list string) (override : option (list string))
  : list (ServiceField string) :=
  if sourceLocked service "config.domains"
  then (fun d => {| readOnly := true; value := d |}) <$> domains
  else (fun d => {| readOnly := false; value := d |}) <$> default domains override.

Definition deserializeService (service : SerializedService)
    (override : option SerializedService) : ClientService :=
  let override :=
    o ← override;
    if decide (Serialized_name o = Serialized_name service
               ∧ Serialized_type (Serialized_config o)
                 = Serialized_type (Serialized_config service))
    then Some o else None in
  {| Client_name :=
       field service "name" (Serialized_name service) (Serialized_name <$> override);
     Client_run :=
       field service "run" (Serialized_run service) (Serialized_run <$> override);
     Client_instances :=
       field service "instances" (Serialized_instances service)
             (Serialized_instances <$> override);
     Client_port :=
       field service "port" (Serialized_port service) (Serialized_port <$> override);
     Client_cpuCores :=
       field service "cpuCores" (Serialized_cpuCores service)
             (Serialized_cpuCores <$> override);
     Client_ramMegabytes :=
       field service "ramMegabytes" (Serialized_ramMegabytes service)
             (Serialized_ramMegabytes <$> override);
     Client_config :=
       match Serialized_config service with
       | Serialized_web a h d =>
           Client_web
             (deserializeAutoscaling service a (override ≫= overrideAutoscaling))
             (deserializeHealthCheck service h (override ≫= overrideHealthCheck))
             (deserializeDomains service d (override ≫= overrideDomains))
       | Serialized_worker a =>
           Client_worker
             (deserializeAutoscaling service a (override ≫= overrideAutoscaling))
       | Serialized_job a c =>
           Client_job
             (field service "config.allowConcurrent" a
                    (override ≫= overrideAllowConcurrent))
             (field service "config.cron" c (override ≫= overrideCron))
       | Serialized_predeploy => Client_predeploy
       end;
     Client_origin := default (Serialized_origin service) (Serialized_origin <$> override) |}.

End deserializeService.

End services.

(** ** The dashboard's application model (lib/porter-apps) *)

Module porter_apps.
Import services.

(** An entry of [buildpacks] in the form: [{ name, buildpack }]. *)
Record Buildpack := {
  Buildpack_name : string;
  Buildpack_buildpack : string }.

(** BuildOptions: the discriminated union on [method] of buildValidator. *)
Inductive BuildOptions :=
| BuildOptions_pack (context : string) (buildpacks : list Buildpack) (builder : string)
| BuildOptions_docker (context : string) (dockerfile : string).

(** SourceOptions: the discriminated union on [type] of sourceValidator. *)
Inductive SourceOptions :=
| SourceOptions_github (git_repo_id : Z) (git_branch git_repo_name porter_yaml_path : string)
| SourceOptions_docker_registry (image_repository image_tag : string).

(** ClientPorterApp is the representation of a Porter app on the client. *)
Record ClientPorterApp := {
  ClientPorterApp_name : string;
  ClientPorterApp_services : list ClientService;
  ClientPorterApp_env : gmap string string;
  ClientPorterApp_build : BuildOptions }.

Record PorterAppFormData := {
  PorterAppFormData_app : ClientPorterApp;
  PorterAppFormData_source : SourceOptions }.

Definition clientBuildToProto (build : BuildOptions) : porterv1.Build :=
  match build with
  | BuildOptions_pack context buildpacks builder =>
      {| porterv1.Build_Method := "pack";
         porterv1.Build_Context := context;
         porterv1.Build_Buildpacks := Buildpack_buildpack <$> buildpacks;
         porterv1.Build_Builder := builder;
         porterv1.Build_Dockerfile := "" |}
  | BuildOptions_docker context dockerfile =>
      {| porterv1.Build_Method := "docker";
         porterv1.Build_Context := context;
         porterv1.Build_Buildpacks := [];
         porterv1.Build_Builder := "";
         porterv1.Build_Dockerfile := dockerfile |}
  end.

Definition clientAppToProto (data : PorterAppFormData) : porterv1.PorterApp :=
  let app := PorterAppFormData_app data in
  let source := PorterAppFormData_source data in
  let services :=
    foldl (fun (acc : gmap string porterv1.Service) svc =>
             <[value (Client_name svc) := serviceProto (serializeService svc)]> acc)
          ∅
          (List.filter (fun s => negb (isPredeployService s))
                       (ClientPorterApp_services app)) in
  let predeploy := List.find isPredeployService (ClientPorterApp_services app) in
  match source with
  | SourceOptions_github _ _ _ _ =>
      {| porterv1.PorterApp_Name := ClientPorterApp_name app;
         porterv1.PorterApp_Services := services;
         porterv1.PorterApp_Env := ClientPorterApp_env app;
         porterv1.PorterApp_Build := Some (clientBuildToProto (ClientPorterApp_build app));
         porterv1.PorterApp_Image := None;
         porterv1.PorterApp_Predeploy :=
           match predeploy with
           | Some predeploy => Some (serviceProto (serializeService predeploy))
           | None => None
           end |}
  | SourceOptions_docker_registry repository tag =>
      {| porterv1.PorterApp_Name := ClientPorterApp_name app;
         porterv1.PorterApp_Services := services;
         porterv1.PorterApp_Env := ClientPorterApp_env app;
         porterv1.PorterApp_Build := None;
         porterv1.PorterApp_Image :=
           Some {| porterv1.AppImage_Repository := repository;
                   porterv1.AppImage_Tag := tag |};
         porterv1.PorterApp_Predeploy := None |}
  end.

(** The [safeParse] against the two build shapes succeeds on a contract
    [Build] exactly when its method is one of the two literals: the other
    keys are strings of the message and are always there. *)
Definition clientBuildFromProto (proto : option porterv1.Build) : option BuildOptions :=
  match proto with
  | None => None
  | Some proto =>
      if String.eqb (porterv1.Build_Method proto) "pack" then
        Some (BuildOptions_pack
                (porterv1.Build_Context proto)
                ((fun b => {| Buildpack_name := b; Buildpack_buildpack := b |})
                   <$> porterv1.Build_Buildpacks proto)
                (porterv1.Build_Builder proto))
      else if String.eqb (porterv1.Build_Method proto) "docker" then
        Some (BuildOptions_docker (porterv1.Build_Context proto)
                                  (porterv1.Build_Dockerfile proto))
      else None
  end.

(** The build that [clientAppFromProto] falls back to. *)
Definition defaultBuild : BuildOptions := BuildOptions_pack "./" [] "".

Section clientAppFromProto.

Variable sourceLocked : SerializedService -> string -> bool.

(** The callback of the second [map] in [clientAppFromProto]: the form
    state of the service [svc] of the specification, merged with the
    first override of its name when there is one.  [overrides = None]
    is [null]. *)
Definition withOverride (overrides : option DetectedServices)
    (svc : SerializedService) : ClientService :=
  let override :=
    o ← overrides;
    List.find (fun s => String.eqb (value (Client_name s)) (Serialized_name svc))
              (DetectedServices_services o) in
  match override with
  | Some override =>
      deserializeService sourceLocked svc (Some (serializeService override))
  | None => deserializeService sourceLocked svc None
  end.

(** [clientAppFromProto proto overrides]; the result [None] is an
    exception thrown by a conversion.  [Object.entries(proto.services)]
    is taken in the order of [map_to_list]; [predeploy] is the list
    that [[...services, predeploy].filter(valueExists)] appends, with
    the predeploy service or, when it is [undefined], without. *)
Definition clientAppFromProto (proto : porterv1.PorterApp)
    (overrides : option DetectedServices) : option ClientPorterApp :=
  serialized ←
    mapM (fun '(name, service) => serializedServiceFromProto name service false)
         (map_to_list (porterv1.PorterApp_Services proto));
  let services := withOverride overrides <$> serialized in
  let build :=
    default defaultBuild (clientBuildFromProto (porterv1.PorterApp_Build proto)) in
  match overrides ≫= DetectedServices_predeploy with
  | None =>
      Some {| ClientPorterApp_name := porterv1.PorterApp_Name proto;
              ClientPorterApp_services := services;
              ClientPorterApp_env := porterv1.PorterApp_Env proto;
              ClientPorterApp_build := build |}
  | Some overridesPredeploy =>
      let predeployOverrides := serializeService overridesPredeploy in
      predeploy ←
        match porterv1.PorterApp_Predeploy proto with
        | Some protoPredeploy =>
            svc ← serializedServiceFromProto "pre-deploy" protoPredeploy true;
            Some [deserializeService sourceLocked svc (Some predeployOverrides)]
        | None => Some []
        end;
      Some {| ClientPorterApp_name := porterv1.PorterApp_Name proto;
              ClientPorterApp_services := services ++ predeploy;
              ClientPorterApp_env := porterv1.PorterApp_Env proto;
              ClientPorterApp_build := build |}
  end.

End clientAppFromProto.

End porter_apps.

(** ** The validate endpoint (package porter_app, validate.go) *)

Module porter_app.

(** Go's conversion [int64(x)] of an unsigned integer: the low 64 bits,
    read as a two's complement number. *)
Definition int64 (x : Z) : Z := (x + 2 ^ 63) mod 2 ^ 64 - 2 ^ 63.

Definition http_StatusBadRequest : Z := 400.
Definition http_StatusInternalServerError : Z := 500.

(** What the handler reads of the project in scope. *)
Record Project := {
  Project_ID : Z;
  Project_ValidateApplyV2 : bool }.

(** ValidatePorterAppRequest is the request object for the /apps/validate
    endpoint *)
Record ValidatePorterAppRequest := {
  Base64AppProto : string;
  DeploymentTargetId : string;
  CommitSHA : string }.

(** ValidatePorterAppResponse is the response object for the
    /apps/validate endpoint *)
Record ValidatePorterAppResponse := {
  ValidatedBase64AppProto : string }.

(** The request message of the cluster control plane that the handler
    builds ([porterv1.ValidatePorterAppRequest]). *)
Record ccp_ValidatePorterAppRequest := {
  ccp_ProjectId : Z;
  ccp_DeploymentTargetId : string;
  ccp_CommitSha : string;
  ccp_App : porterv1.PorterApp }.

(** The answer of the cluster control plane: a response that may be nil,
    with a message that may be nil, with an application that may be nil. *)
Record ccp_ValidatePorterAppResponse := {
  ccp_Response_App : option porterv1.PorterApp }.

Record connect_Response := {
  connect_Msg : option ccp_ValidatePorterAppResponse }.

(** The errors of package apierrors that the handler hands over. *)
Inductive RequestError :=
| NewErrForbidden (err : error)
| NewErrPassThroughToClient (err : error) (status : Z).

(** What the handler writes: on every path it ends with one call, of
    [HandleAPIError] or of [WriteResult]. *)
Inductive written :=
| HandleAPIError (err : RequestError)
| WriteResult (response : ValidatePorterAppResponse).

Section ServeHTTP.

(** The collaborators of the handler: the decoder of the request body, the
    standard base64 encoding, the codec of the contract objects and the
    client of the cluster control plane.  The handler calls each of them at
    most once. *)
Variable http_Request : Type.
Variable DecodeAndValidate : http_Request -> option ValidatePorterAppRequest.
Variable base64_DecodeString : string -> result (list Byte.byte).
Variable base64_EncodeToString : list Byte.byte -> string.
Variable UnmarshalContractObject : list Byte.byte -> result porterv1.PorterApp.
Variable MarshalContractObject : porterv1.PorterApp -> result (list Byte.byte).
Variable ValidatePorterApp : ccp_ValidatePorterAppRequest -> result (option connect_Response).

Definition badRequest (err : error) : written :=
  HandleAPIError (NewErrPassThroughToClient err http_StatusBadRequest).

Definition internalServerError (err : error) : written :=
  HandleAPIError (NewErrPassThroughToClient err http_StatusInternalServerError).

(** ServeHTTP translates requests into protobuf objects and forwards them
    to the cluster control plane, returning the result.  The value is what
    the handler writes, together with the requests it has sent to the
    cluster control plane. *)
Definition ServeHTTP (project : Project) (r : http_Request)
  : written * list ccp_ValidatePorterAppRequest :=
  if negb (Project_ValidateApplyV2 project) then
    (HandleAPIError
       (NewErrForbidden
          (telemetry_Error nil_error "project does not have validate apply v2 enabled")),
     [])
  else
    match DecodeAndValidate r with
    | None => (badRequest (telemetry_Error nil_error "error decoding request"), [])
    | Some request =>
        if String.eqb (Base64AppProto request) "" then
          (badRequest (telemetry_Error nil_error "b64 yaml is empty"), [])
        else
          match base64_DecodeString (Base64AppProto request) with
          | Err err => (badRequest (telemetry_Error err "error decoding base  yaml"), [])
          | Ok decoded =>
              match UnmarshalContractObject decoded with
              | Err err =>
                  (badRequest (telemetry_Error err "error unmarshalling app proto"), [])
              | Ok appProto =>
                  if String.eqb (porterv1.PorterApp_Name appProto) "" then
                    (badRequest (telemetry_Error nil_error "app proto name is empty"), [])
                  else
                    let validateReq :=
                      {| ccp_ProjectId := int64 (Project_ID project);
                         ccp_DeploymentTargetId := DeploymentTargetId request;
                         ccp_CommitSha := CommitSHA request;
                         ccp_App := appProto |} in
                    (match ValidatePorterApp validateReq with
                     | Err err =>
                         internalServerError
                           (telemetry_Error err "error calling ccp validate porter app")
                     | Ok None =>
                         internalServerError (telemetry_Error nil_error "ccp resp is nil")
                     | Ok (Some ccpResp) =>
                         match connect_Msg ccpResp with
                         | None =>
                             internalServerError
                               (telemetry_Error nil_error "ccp resp msg is nil")
                         | Some msg =>
                             match ccp_Response_App msg with
                             | None =>
                                 internalServerError
                                   (telemetry_Error nil_error "ccp resp app is nil")
                             | Some app =>
                                 match MarshalContractObject app with
                                 | Err err =>
                                     internalServerError
                                       (telemetry_Error err
                                          "error marshalling app proto back to json")
                                 | Ok encoded =>
                                     WriteResult
                                       {| ValidatedBase64AppProto :=
                                            base64_EncodeToString encoded |}
                                 end
                             end
                         end
                     end,
                     [validateReq])
              end
          end
    end.

End ServeHTTP.

(** Stand-ins for the examples: the request body is the decoded request
    itself; the text [e30=] decodes to the two bytes of an empty JSON
    object, the text [e30] to one byte, and every other text is rejected;
    two bytes unmarshal to the specification of the test document and
    anything else to the specification of the document without a name;
    marshalling gives two bytes, encoded as [e30=]; and the cluster control
    plane answers with the application it was sent. *)
Definition example_DecodeAndValidate (r : option ValidatePorterAppRequest) := r.

Definition example_DecodeString (s : string) : result (list Byte.byte) :=
  if String.eqb s "e30=" then Ok [Byte.x7b; Byte.x7d]
  else if String.eqb s "e30" then Ok [Byte.x7b]
  else Err (errors_New "illegal base64 data").

Definition example_EncodeToString (b : list Byte.byte) : string := "e30=".

Definition example_Unmarshal (b : list Byte.byte) : result porterv1.PorterApp :=
  match b with
  | [_; _] => Ok testdata.result_nobuild
  | _ => v2.appProtoFromPorterYAML testdata.no_name
  end.

Definition example_Marshal (app : porterv1.PorterApp) : result (list Byte.byte) :=
  Ok [Byte.x7b; Byte.x7d].

Definition example_ValidatePorterApp (req : ccp_ValidatePorterAppRequest)
  : result (option connect_Response) :=
  Ok (Some {| connect_Msg := Some {| ccp_Response_App := Some (ccp_App req) |} |}).

Definition example_ServeHTTP :=
  ServeHTTP (option ValidatePorterAppRequest) example_DecodeAndValidate
    example_DecodeString example_EncodeToString example_Unmarshal example_Marshal
    example_ValidatePorterApp.

Definition example_project : Project :=
  {| Project_ID := 7; Project_ValidateApplyV2 := true |}.

Definition example_request (b64 : string) : option ValidatePorterAppRequest :=
  Some {| Base64AppProto := b64; DeploymentTargetId := "target"; CommitSHA := "abc123" |}.

End porter_app.

(** ** Building and pushing an image (cli/cmd/v2/build.go) *)

(** [strings.TrimPrefix s prefix]: [s] without the leading [prefix], or [s]
    itself when it does not start with it. *)
Fixpoint string_drop (n : nat) (s : string) : string :=
  match n, s with
  | O, _ => s
  | S _, EmptyString => EmptyString
  | S n, String _ s => string_drop n s
  end.

Definition strings_TrimPrefix (s prefix : string) : string :=
  if has_prefix s prefix then string_drop (String.length prefix) s else s.

Module cli_v2.

Definition buildMethodPack : string := "pack".
Definition buildMethodDocker : string := "docker".

(** The errors of this file: [errors.New], [fmt.Errorf] with one [%s]
    verb, and [fmt.Errorf] with the verb [%w], which wraps its cause. *)
Inductive error : Type :=
| errors_New (msg : string)
| fmt_Errorf_s (format : string) (arg : string)
| fmt_Errorf_w (format : string) (cause : error).

(** buildInput is the input struct for the build method *)
Record buildInput := {
  ProjectID : Z;
  AppName : string;
  BuildContext : string;
  Dockerfile : string;
  BuildMethod : string;
  Builder : string;
  BuildPacks : list string;
  ImageTag : string;
  CurrentImageTag : string;
  RepositoryURL : string }.

(** What the file reads of a registry of the project. *)
Record Registry := {
  Registry_ID : Z;
  Registry_URL : string }.

(** [docker.BuildOpts] and [types.BuildConfig], with the fields the file
    sets; a field that a literal leaves out has its zero value. *)
Record BuildOpts := {
  BuildOpts_ImageRepo : string;
  BuildOpts_Tag : string;
  BuildOpts_CurrentTag : string;
  BuildOpts_BuildContext : string;
  BuildOpts_DockerfilePath : string;
  BuildOpts_IsDockerfileInCtx : bool }.

Record BuildConfig := {
  BuildConfig_Builder : string;
  BuildConfig_Buildpacks : list string }.

(** The calls to the API client and to the docker and pack agents, in the
    order in which a run makes them. *)
Inductive call :=
| client_ListRegistries (projectID : Z)
| client_CreateRepository (projectID registryID : Z) (ImageRepoURI : string)
| docker_NewAgentWithAuthGetter (projectID : Z)
| dockerAgent_BuildLocal (opts : BuildOpts)
| packAgent_Build (opts : BuildOpts) (buildConfig : BuildConfig) (cacheImage : string)
| dockerAgent_PushImage (image : string).

(** A computation that makes calls and ends with a value or an error: it
    takes the calls made so far and returns them with its own added. *)
Definition M (A : Type) : Type := list call -> (error + A) * list call.

Definition ret {A} (a : A) : M A := fun trace => (inr a, trace).

Definition fail {A} (e : error) : M A := fun trace => (inl e, trace).

Definition bind {A B} (m : M A) (k : A -> M B) : M B :=
  fun trace =>
    match m trace with
    | (inr a, trace') => k a trace'
    | (inl e, trace') => (inl e, trace')
    end.

(** [perform c r]: make the call [c], whose answer is [r]. *)
Definition perform {A} (c : call) (r : A) : M A :=
  fun trace => (inr r, trace ++ [c])%list.

(** [check err format]: the idiom
    [if err != nil { return fmt.Errorf(format, err) }] with the verb [%w]. *)
Definition check (err : option error) (format : string) : M unit :=
  match err with
  | Some e => fail (fmt_Errorf_w format e)
  | None => ret tt
  end.

Definition checked {A} (r : error + A) (format : string) : M A :=
  match r with
  | inl e => fail (fmt_Errorf_w format e)
  | inr a => ret a
  end.

(** [wrapped m format]: the same idiom around a call of a function of this
    file, [err := m; if err != nil { return fmt.Errorf(format, err) }]. *)
Definition wrapped {A} (m : M A) (format : string) : M A :=
  fun trace =>
    match m trace with
    | (inl e, trace') => (inl (fmt_Errorf_w format e), trace')
    | (inr a, trace') => (inr a, trace')
    end.

#[global] Instance M_ret : MRet M := @ret.
#[global] Instance M_bind : MBind M := fun A B k m => bind m k.

Section build.

(** The collaborators.  Every one that makes a call is used at most once in
    a run, so that a function of the arguments stands for whatever it
    answers; the functions of [filepath] depend on the working directory
    only. *)
Variable ListRegistries : Z -> error + option (list Registry).
Variable CreateRepository : Z -> Z -> string -> option error.
Variable NewAgentWithAuthGetter : Z -> option error.
Variable BuildLocal : BuildOpts -> option error.
Variable PackBuild : BuildOpts -> BuildConfig -> string -> option error.
Variable PushImage : string -> option error.
Variable filepath_Abs : string -> error + string.
Variable filepath_IsAbs : string -> bool.
Variable filepath_Join : string -> string -> string.
Variable filepath_Rel : string -> string -> error + string.
Variable os_PathSeparator : ascii.

(** The loop over the registries: the first registry whose URL, without
    the scheme, occurs in the image URL, without the scheme. *)
Definition matchingRegistry (imageURL : string) (regList : list Registry)
  : option Registry :=
  List.find (fun registry =>
               strings_Contains (strings_TrimPrefix imageURL "https://")
                                (strings_TrimPrefix (Registry_URL registry) "https://"))
            regList.

Definition createImageRepositoryIfNotExists (projectID : Z) (imageURL : string) : M unit :=
  (if Z.eqb projectID 0 then fail (errors_New "must specify a project id")
   else if String.eqb imageURL "" then fail (errors_New "must specify an image url")
   else
     regList ← perform (client_ListRegistries projectID) (ListRegistries projectID);
     regList ← checked regList "error calling list registries: %w";
     match regList with
     | None => fail (errors_New "registry list is nil")
     | Some [] => fail (errors_New "no registries found for project")
     | Some regList =>
         let registryID :=
           match matchingRegistry imageURL regList with
           | Some registry => Registry_ID registry
           | None => 0
           end in
         if Z.eqb registryID 0 then fail (errors_New "no registries match url")
         else
           err ← perform (client_CreateRepository projectID registryID imageURL)
                         (CreateRepository projectID registryID imageURL);
           check err "error creating repository: %w"
     end).

(** resolveDockerPaths returns a path to the dockerfile that is either
    relative or absolute, and a path to the build context that is
    absolute. *)
Definition resolveDockerPaths (basePath buildContextPath dockerfilePath : string)
  : error + (string * string * bool) :=
  match filepath_Abs buildContextPath with
  | inl err => inl (fmt_Errorf_w "error getting absolute path: %w" err)
  | inr absoluteBuildContextPath =>
      let outputDockerfilePath :=
        if negb (filepath_IsAbs dockerfilePath)
        then filepath_Join basePath dockerfilePath
        else dockerfilePath in
      match filepath_Rel absoluteBuildContextPath outputDockerfilePath with
      | inl err => inl (fmt_Errorf_w "error getting relative path: %w" err)
      | inr pathComp =>
          if negb (has_prefix pathComp (".." +:+ String os_PathSeparator ""))
          then inr (absoluteBuildContextPath, pathComp, true)
          else
            match filepath_Abs outputDockerfilePath with
            | inl err => inl err
            | inr outputDockerfilePath =>
                inr (absoluteBuildContextPath, outputDockerfilePath, false)
            end
      end
  end.

(** build will create an image repository if it does not exist, and then
    build and push the image *)
Definition build (inp : buildInput) : M unit :=
  (if Z.eqb (ProjectID inp) 0 then fail (errors_New "must specify a project id")
   else
     let projectID := ProjectID inp in
     if String.eqb (ImageTag inp) "" then fail (errors_New "must specify an image tag")
     else
       let tag := ImageTag inp in
       if String.eqb (RepositoryURL inp) "" then
         fail (errors_New "must specify a registry url")
       else
         let imageURL := strings_TrimPrefix (RepositoryURL inp) "https://" in
         wrapped (createImageRepositoryIfNotExists projectID imageURL)
                 "error creating image repository: %w";;
         err ← perform (docker_NewAgentWithAuthGetter projectID)
                       (NewAgentWithAuthGetter projectID);
         check err "error getting docker agent: %w";;
         (if String.eqb (BuildMethod inp) buildMethodDocker then
            basePath ← checked (filepath_Abs ".") "error getting absolute path: %w";
            paths ← checked (resolveDockerPaths basePath (BuildContext inp) (Dockerfile inp))
                            "error resolving docker paths: %w";
            let '(buildCtx, dockerfilePath, isDockerfileInCtx) := paths in
            let opts :=
              {| BuildOpts_ImageRepo := RepositoryURL inp;
                 BuildOpts_Tag := tag;
                 BuildOpts_CurrentTag := CurrentImageTag inp;
                 BuildOpts_BuildContext := buildCtx;
                 BuildOpts_DockerfilePath := dockerfilePath;
                 BuildOpts_IsDockerfileInCtx := isDockerfileInCtx |} in
            err ← perform (dockerAgent_BuildLocal opts) (BuildLocal opts);
            check err "error building image with docker: %w"
          else if String.eqb (BuildMethod inp) buildMethodPack then
            let opts :=
              {| BuildOpts_ImageRepo := imageURL;
                 BuildOpts_Tag := tag;
                 BuildOpts_CurrentTag := "";
                 BuildOpts_BuildContext := BuildContext inp;
                 BuildOpts_DockerfilePath := "";
                 BuildOpts_IsDockerfileInCtx := false |} in
            let buildConfig :=
              {| BuildConfig_Builder := Builder inp;
                 BuildConfig_Buildpacks := BuildPacks inp |} in
            err ← perform (packAgent_Build opts buildConfig "")
                          (PackBuild opts buildConfig "");
            check err "error building image with pack: %w"
          else fail (fmt_Errorf_s "invalid build method: %s" (BuildMethod inp)));;
         err ← perform (dockerAgent_PushImage (imageURL +:+ ":" +:+ tag))
                       (PushImage (imageURL +:+ ":" +:+ tag));
         check err ("error pushing image url: %w" +:+ String "010" "")).

End build.

End cli_v2.

(** Stand-ins for the examples: a project with two registries, of which
    the first has no URL, and collaborators that always succeed; paths are
    made absolute under [/work] and the dockerfile lies in the context. *)
Module cli_examples.
Import cli_v2.

Definition blank_registry : Registry := {| Registry_ID := 4; Registry_URL := "" |}.
Definition gcr_registry : Registry :=
  {| Registry_ID := 9; Registry_URL := "https://gcr.io/porter" |}.

Definition ListRegistries (projectID : Z) : cli_v2.error + option (list Registry) :=
  inr (Some [blank_registry; gcr_registry]).
Definition CreateRepository (projectID registryID : Z) (uri : string)
  : option cli_v2.error := None.
Definition NewAgentWithAuthGetter (projectID : Z) : option cli_v2.error := None.
Definition BuildLocal (opts : BuildOpts) : option cli_v2.error := None.
Definition PackBuild (opts : BuildOpts) (buildConfig : BuildConfig) (cacheImage : string)
  : option cli_v2.error := None.
Definition PushImage (image : string) : option cli_v2.error := None.
Definition filepath_Abs (path : string) : cli_v2.error + string := inr ("/work/" +:+ path).
Definition filepath_IsAbs (path : string) : bool := has_prefix path "/".
Definition filepath_Join (a b : string) : string := a +:+ "/" +:+ b.
Definition filepath_Rel (base target : string) : cli_v2.error + string := inr "Dockerfile".

Definition run_build :=
  build ListRegistries CreateRepository NewAgentWithAuthGetter BuildLocal PackBuild
    PushImage filepath_Abs filepath_IsAbs filepath_Join filepath_Rel "/"%char.

Definition pack_input : buildInput :=
  {| ProjectID := 7; AppName := "js-test-app"; BuildContext := "./";
     Dockerfile := ""; BuildMethod := "pack"; Builder := "heroku/buildpacks:20";
     BuildPacks := ["heroku/nodejs"]; ImageTag := "abc123"; CurrentImageTag := "";
     RepositoryURL := "https://gcr.io/porter/js-test-app" |}.

(** The same input with the build method [registry], which a porter.yaml
    may declare and this file does not know. *)
Definition registry_input : buildInput :=
  {| ProjectID := 7; AppName := "js-test-app"; BuildContext := "./";
     Dockerfile := ""; BuildMethod := "registry"; Builder := "";
     BuildPacks := []; ImageTag := "abc123"; CurrentImageTag := "";
     RepositoryURL := "https://gcr.io/porter/js-test-app" |}.

(** An input whose registry URL is the scheme alone. *)
Definition scheme_only_input : buildInput :=
  {| ProjectID := 7; AppName := "js-test-app"; BuildContext := "./";
     Dockerfile := ""; BuildMethod := "pack"; Builder := "heroku/buildpacks:20";
     BuildPacks := []; ImageTag := "abc123"; CurrentImageTag := "";
     RepositoryURL := "https://" |}.
End cli_examples.

(** * Properties *)

(** ** Substrings *)

(** [occurs_in substr s]: [s] is some prefix, then [substr], then some
    suffix. *)
Definition occurs_in (substr s : string) : Prop :=
  ∃ pre post, s = pre +:+ substr +:+ post.

(** The invariant of a service of the canonical specification: the config
    variant that is populated is the one of the type. *)
Definition config_matches_type (s : porterv1.Service) : Prop :=
  match porterv1.Service_Config s with
  | Some (porterv1.Service_WebConfig _) =>
      porterv1.Service_Type s = porterv1.ServiceType_SERVICE_TYPE_WEB
  | Some (porterv1.Service_WorkerConfig _) =>
      porterv1.Service_Type s = porterv1.ServiceType_SERVICE_TYPE_WORKER
  | Some (porterv1.Service_JobConfig _) =>
      porterv1.Service_Type s = porterv1.ServiceType_SERVICE_TYPE_JOB
  | None => False
  end.

(** The document [doc] with another name, and with other [build] and
    [image] keys. *)
Definition with_Name (doc : v2.PorterYAML) (name : string) : v2.PorterYAML :=
  {| v2.PorterYAML_Name := name;
     v2.PorterYAML_Services := v2.PorterYAML_Services doc;
     v2.PorterYAML_Image := v2.PorterYAML_Image doc;
     v2.PorterYAML_Build := v2.PorterYAML_Build doc;
     v2.PorterYAML_Env := v2.PorterYAML_Env doc;
     v2.PorterYAML_Predeploy := v2.PorterYAML_Predeploy doc |}.

Definition with_Build_Image (doc : v2.PorterYAML)
    (build : option v2.Build) (image : option v2.Image) : v2.PorterYAML :=
  {| v2.PorterYAML_Name := v2.PorterYAML_Name doc;
     v2.PorterYAML_Services := v2.PorterYAML_Services doc;
     v2.PorterYAML_Image := image;
     v2.PorterYAML_Build := build;
     v2.PorterYAML_Env := v2.PorterYAML_Env doc;
     v2.PorterYAML_Predeploy := v2.PorterYAML_Predeploy doc |}.

(** The services of a specification all carry a config variant: it is a
    canonical specification, one that the conversions to the form model
    accept. *)
Definition has_configs (proto : porterv1.PorterApp) : Prop :=
  map_Forall (λ _ service, is_Some (porterv1.Service_Config service))
             (porterv1.PorterApp_Services proto).

(** Modelled from the spec: the Reconciler "delegates to toClientModel with
    the current ClientAppModel as priorOverrides".  The function of the
    sources takes the prior state as [DetectedServices]; the current form
    state is split into the two parts the way [clientAppToProto] splits it,
    the services that are not the predeploy service and the first one that
    is. *)
Definition priorOverrides (app : porter_apps.ClientPorterApp) : services.DetectedServices :=
  {| services.DetectedServices_services :=
       List.filter (λ s, negb (services.isPredeployService s))
                   (porter_apps.ClientPorterApp_services app);
     services.DetectedServices_predeploy :=
       List.find services.isPredeployService (porter_apps.ClientPorterApp_services app) |}.

(** The overrides without the stale ones: without the services whose name
    the specification does not declare, and without the predeploy service
    when the specification has no predeploy slot. *)
Definition dropStale (proto : porterv1.PorterApp) (overrides : services.DetectedServices)
  : services.DetectedServices :=
  {| services.DetectedServices_services :=
       List.filter
         (λ s, bool_decide (services.value (services.Client_name s)
                            ∈ dom (porterv1.PorterApp_Services proto)))
         (services.DetectedServices_services overrides);
     services.DetectedServices_predeploy :=
       match porterv1.PorterApp_Predeploy proto with
       | Some _ => services.DetectedServices_predeploy overrides
       | None => None
       end |}.

Module examples.
Import services porter_apps.

(** A form service of the given kind that the user added and may edit. *)
Definition editable {T} (v : T) : ServiceField T := {| readOnly := false; value := v |}.

Definition form_service (name : string) (config : ClientConfig) : ClientService :=
  {| Client_name := editable name;
     Client_run := editable "ls";
     Client_instances := editable 1;
     Client_port := editable 3000;
     Client_cpuCores := editable float32_0_1;
     Client_ramMegabytes := editable 256;
     Client_config := config;
     Client_origin := userAdded |}.

Definition form_autoscaling : ClientAutoscaling :=
  {| Client_enabled := editable false;
     Client_minInstances := editable 1;
     Client_maxInstances := editable 10;
     Client_cpuThresholdPercent := editable 50;
     Client_memoryThresholdPercent := editable 50 |}.

(** A form with a web service, a predeploy service and a pack build. *)
Definition form_app : ClientPorterApp :=
  {| ClientPorterApp_name := "js-test-app";
     ClientPorterApp_services :=
       [ form_service "example-wkr" (Client_worker form_autoscaling);
         form_service "pre-deploy" Client_predeploy ];
     ClientPorterApp_env := ∅;
     ClientPorterApp_build := BuildOptions_pack "./" [] "heroku/buildpacks:20" |}.

(** Prior overrides: an edited worker of the test document, a service
    named old-api that the document does not declare, and a predeploy
    service. *)
Definition prior : DetectedServices :=
  {| DetectedServices_services :=
       [ form_service "old-api" (Client_worker form_autoscaling);
         form_service "example-wkr" (Client_worker form_autoscaling) ];
     DetectedServices_predeploy := Some (form_service "pre-deploy" Client_predeploy) |}.

(** Fields that the examples take as source-locked: the run command. *)
Definition run_is_locked (service : SerializedService) (path : string) : bool :=
  String.eqb path "run".
End examples.

(** The kind of the service [service] declared under [name] can be
    resolved: its [type] is one of the three literals, or it has none and
    the name contains one of the three substrings. *)
Definition kind_resolvable (name : string) (service : v2.Service) : Prop :=
  v2.Service_Type service = "web" ∨ v2.Service_Type service = "worker"
  ∨ v2.Service_Type service = "job"
  ∨ (v2.Service_Type service = ""
     ∧ (occurs_in "web" name ∨ occurs_in "wkr" name ∨ occurs_in "job" name)).

(** The document [doc] with another [predeploy] key. *)
Definition with_Predeploy (doc : v2.PorterYAML) (predeploy : option v2.Service)
  : v2.PorterYAML :=
  {| v2.PorterYAML_Name := v2.PorterYAML_Name doc;
     v2.PorterYAML_Services := v2.PorterYAML_Services doc;
     v2.PorterYAML_Image := v2.PorterYAML_Image doc;
     v2.PorterYAML_Build := v2.PorterYAML_Build doc;
     v2.PorterYAML_Env := v2.PorterYAML_Env doc;
     v2.PorterYAML_Predeploy := predeploy |}.

(** [x] is a value of a Go [int32]. *)
Definition in_int32 (x : Z) : Prop := - 2 ^ 31 ≤ x < 2 ^ 31.

Module more_testdata.
Import v2.

(** A service whose [type] is not one of the three literals. *)
Definition cron_service : Service :=
  {| Service_Run := "ls"; Service_Type := "cron";
     Service_Instances := 0; Service_CpuCores := 0;
     Service_RamMegabytes := 0; Service_Port := 0;
     Service_Autoscaling := None; Service_Domains := [];
     Service_HealthCheck := None; Service_AllowConcurrent := false;
     Service_Cron := "" |}.

(** A document whose only service has the type [cron]. *)
Definition unknown_type : PorterYAML :=
  {| PorterYAML_Name := "js-test-app";
     PorterYAML_Services := Some (<["nightly" := cron_service]> ∅);
     PorterYAML_Image := None; PorterYAML_Build := None;
     PorterYAML_Env := ∅; PorterYAML_Predeploy := None |}.

(** A worker whose port, 2^32 + 80, and instance count, 2^31, do not fit
    32 bits. *)
Definition wide_worker : Service :=
  {| Service_Run := "echo 'work'"; Service_Type := "worker";
     Service_Instances := 2147483648; Service_CpuCores := float32_0_1;
     Service_RamMegabytes := 256; Service_Port := 4294967376;
     Service_Autoscaling := None; Service_Domains := [];
     Service_HealthCheck := None; Service_AllowConcurrent := false;
     Service_Cron := "" |}.

End more_testdata.

Lemma append_nil_l (s : string) : "" +:+ s = s.
Proof. reflexivity. Qed.

Lemma append_cons (a : ascii) (s t : string) : String a s +:+ t = String a (s +:+ t).
Proof. reflexivity. Qed.

Lemma has_prefix_spec (s p : string) :
  has_prefix s p = true ↔ ∃ post, s = p +:+ post.
Proof.
  revert s. induction p as [|b p IH]; intros s; simpl.
  - split; [intros _; by exists s | done].
  - destruct s as [|a s]; simpl.
    + split; [done | intros [post Hpost]; discriminate].
    + destruct (Ascii.eqb a b) eqn:Hab.
      * apply Ascii.eqb_eq in Hab as ->. rewrite IH.
        split; intros [post Hpost]; exists post;
          rewrite append_cons in *; congruence.
      * apply Ascii.eqb_neq in Hab.
        split; [done | intros [post Hpost]; rewrite append_cons in Hpost; congruence].
Qed.

Lemma strings_Contains_spec (s substr : string) :
  strings_Contains s substr = true ↔ occurs_in substr s.
Proof.
  unfold occurs_in. induction s as [|a s IH]; simpl.
  - rewrite orb_false_r, has_prefix_spec. split.
    + intros [post Hpost]. by exists "", post.
    + intros ([|c pre] & post & Hpost); [by exists post | discriminate].
  - rewrite orb_true_iff, has_prefix_spec, IH. split.
    + intros [[post Hpost] | (pre & post & Hpost)].
      * by exists "", post.
      * exists (String a pre), post. by rewrite append_cons, <- Hpost.
    + intros ([|c pre] & post & Hpost).
      * left. by exists post.
      * right. exists pre, post. rewrite append_cons in Hpost. congruence.
Qed.

Lemma strings_Contains_false (s substr : string) :
  strings_Contains s substr = false ↔ ¬ occurs_in substr s.
Proof.
  rewrite <- strings_Contains_spec. destruct (strings_Contains s substr); naive_solver.
Qed.

(** ** Kind resolution *)

Import v2.

(** C1: the kind of a service is resolved in a strict order of priority.  An
    explicit [type] goes through the table web, worker, job, and any other
    literal is an error; without a [type] the name decides, by the first of
    the substrings web, wkr, job that occurs in it, and it is an error when
    none occurs.  The name web-job resolves to Web. *)
Theorem protoEnumFromType_priority (name : string) (service : Service) :
  let r := protoEnumFromType name service in
  (Service_Type service = "web" → r = Ok porterv1.ServiceType_SERVICE_TYPE_WEB) ∧
  (Service_Type service = "worker" → r = Ok porterv1.ServiceType_SERVICE_TYPE_WORKER) ∧
  (Service_Type service = "job" → r = Ok porterv1.ServiceType_SERVICE_TYPE_JOB) ∧
  (Service_Type service ≠ "" → Service_Type service ≠ "web" →
   Service_Type service ≠ "worker" → Service_Type service ≠ "job" →
   r = Err (fmt_Errorf "invalid service type '%s'" (Service_Type service))) ∧
  (Service_Type service = "" → occurs_in "web" name →
   r = Ok porterv1.ServiceType_SERVICE_TYPE_WEB) ∧
  (Service_Type service = "" → ¬ occurs_in "web" name → occurs_in "wkr" name →
   r = Ok porterv1.ServiceType_SERVICE_TYPE_WORKER) ∧
  (Service_Type service = "" → ¬ occurs_in "web" name → ¬ occurs_in "wkr" name →
   occurs_in "job" name →
   r = Ok porterv1.ServiceType_SERVICE_TYPE_JOB) ∧
  (Service_Type service = "" → ¬ occurs_in "web" name → ¬ occurs_in "wkr" name →
   ¬ occurs_in "job" name →
   r = Err (errors_New "no type provided and could not parse service type from name")) ∧
  (Service_Type service = "" → name = "web-job" →
   r = Ok porterv1.ServiceType_SERVICE_TYPE_WEB).
Proof.
  unfold protoEnumFromType. cbv zeta.
  repeat split.
  - by intros ->.
  - by intros ->.
  - by intros ->.
  - intros H0 H1 H2 H3.
    apply String.eqb_neq in H0, H1, H2, H3. by rewrite H0, H1, H2, H3.
  - intros -> Hweb%strings_Contains_spec. simpl. by rewrite Hweb.
  - intros -> Hweb%strings_Contains_false Hwkr%strings_Contains_spec.
    simpl. by rewrite Hweb, Hwkr.
  - intros -> Hweb%strings_Contains_false Hwkr%strings_Contains_false
      Hjob%strings_Contains_spec.
    simpl. by rewrite Hweb, Hwkr, Hjob.
  - intros -> Hweb%strings_Contains_false Hwkr%strings_Contains_false
      Hjob%strings_Contains_false.
    simpl. by rewrite Hweb, Hwkr, Hjob.
  - by intros -> ->.
Qed.

(** The service named web-job, without a [type], is a web service; the
    same name with the explicit type job is a job. *)
Lemma protoEnumFromType_priority_witness :
  protoEnumFromType "web-job" testdata.zero_Service
    = Ok porterv1.ServiceType_SERVICE_TYPE_WEB
  ∧ protoEnumFromType "web-job" testdata.example_job
    = Ok porterv1.ServiceType_SERVICE_TYPE_JOB.
Proof.
  split.
  - destruct (protoEnumFromType_priority "web-job" testdata.zero_Service)
      as (_ & _ & _ & _ & _ & _ & _ & _ & Hname).
    apply Hname; reflexivity.
  - destruct (protoEnumFromType_priority "web-job" testdata.example_job)
      as (_ & _ & Hjob & _).
    apply Hjob; reflexivity.
Defined.

Lemma protoEnumFromType_Ok (name : string) (service : Service) (t : porterv1.ServiceType) :
  protoEnumFromType name service = Ok t →
  t = porterv1.ServiceType_SERVICE_TYPE_WEB
  ∨ t = porterv1.ServiceType_SERVICE_TYPE_WORKER
  ∨ t = porterv1.ServiceType_SERVICE_TYPE_JOB.
Proof.
  unfold protoEnumFromType.
  repeat case_match; intros [= <-]; auto.
Qed.

(** ** Kind-specific configs *)

Lemma serviceProtoFromConfig_Ok (service : Service) (t : porterv1.ServiceType)
    (s : porterv1.Service) :
  serviceProtoFromConfig service t = Ok s →
  config_matches_type s ∧ porterv1.Service_Type s = t
  ∧ t ≠ porterv1.ServiceType_SERVICE_TYPE_UNSPECIFIED.
Proof.
  unfold serviceProtoFromConfig, config_matches_type.
  destruct (Z.eqb_spec t porterv1.ServiceType_SERVICE_TYPE_UNSPECIFIED) as [->|H0];
    [done|].
  destruct (Z.eqb_spec t porterv1.ServiceType_SERVICE_TYPE_WEB) as [->|H1];
    [by intros [= <-]|].
  destruct (Z.eqb_spec t porterv1.ServiceType_SERVICE_TYPE_WORKER) as [->|H2];
    [by intros [= <-]|].
  destruct (Z.eqb_spec t porterv1.ServiceType_SERVICE_TYPE_JOB) as [->|H3];
    [by intros [= <-]|done].
Qed.

Lemma serviceFromYaml_Ok (name : string) (service : Service) (s : porterv1.Service) :
  serviceFromYaml name service = Ok s →
  config_matches_type s
  ∧ porterv1.Service_Type s ≠ porterv1.ServiceType_SERVICE_TYPE_UNSPECIFIED.
Proof.
  unfold serviceFromYaml.
  destruct (protoEnumFromType name service) as [t|e]; simpl; [|done].
  destruct (serviceProtoFromConfig service t) as [s'|e] eqn:Hs; simpl; [|done].
  intros [= <-]. apply serviceProtoFromConfig_Ok in Hs as (? & -> & ?). done.
Qed.

(** A service with a resolvable kind always converts. *)
Lemma serviceFromYaml_total (name : string) (service : Service) :
  is_Ok (protoEnumFromType name service) = true →
  is_Ok (serviceFromYaml name service) = true.
Proof.
  unfold serviceFromYaml.
  destruct (protoEnumFromType name service) as [t|e] eqn:Ht; simpl; [|done].
  intros _. by apply protoEnumFromType_Ok in Ht as [-> | [-> | ->]].
Qed.

(** The loop over the services: it succeeds exactly when every service
    converts, and then the result has the converted service under each
    name of the document and nothing else. *)
Lemma servicesFromYaml_spec (services : gmap string Service) :
  (∀ out, servicesFromYaml services = Ok out →
     ∀ name, out !! name
             = services !! name ≫= λ service, ok_of (serviceFromYaml name service))
  ∧ (is_Ok (servicesFromYaml services) = true
     ↔ map_Forall (λ name service, is_Ok (serviceFromYaml name service) = true) services).
Proof.
  unfold servicesFromYaml.
  apply (map_fold_weak_ind (λ r m,
    (∀ out, r = Ok out →
       ∀ name, out !! name = m !! name ≫= λ service, ok_of (serviceFromYaml name service))
    ∧ (is_Ok r = true
       ↔ map_Forall (λ name service, is_Ok (serviceFromYaml name service) = true) m))).
  - split.
    + intros out [= <-] name. by rewrite !lookup_empty.
    + split; [intros _; apply map_Forall_empty | done].
  - intros name service m r Hname [IHlookup IHok]. split.
    + intros out. destruct r as [acc|e]; simpl; [|done].
      destruct (serviceFromYaml name service) as [s|e] eqn:Hs; simpl; [|done].
      intros [= <-] name'. rewrite !lookup_insert. case_decide as Heq.
      * subst name'. simpl. by rewrite Hs.
      * by apply IHlookup.
    + rewrite map_Forall_insert by done. destruct IHok as [IHok1 IHok2].
      destruct r as [acc|e]; simpl;
        destruct (serviceFromYaml name service) as [s|e']; simpl; intuition congruence.
Qed.

Lemma servicesFromYaml_Ok (services : gmap string Service)
    (out : gmap string porterv1.Service) (name : string) (s : porterv1.Service) :
  servicesFromYaml services = Ok out → out !! name = Some s →
  ∃ service, services !! name = Some service ∧ serviceFromYaml name service = Ok s.
Proof.
  intros Hout Hs.
  rewrite (proj1 (servicesFromYaml_spec services) out Hout) in Hs.
  destruct (services !! name) as [service|]; simpl in Hs; [|done].
  exists service. split; [done|].
  destruct (serviceFromYaml name service); simpl in Hs; congruence.
Qed.

Lemma appProtoFromPorterYAML_Ok (doc : PorterYAML) (app : porterv1.PorterApp) :
  appProtoFromPorterYAML doc = Ok app →
  ∃ yamlServices,
    PorterYAML_Services doc = Some yamlServices
    ∧ servicesFromYaml yamlServices = Ok (porterv1.PorterApp_Services app)
    ∧ porterv1.PorterApp_Name app = PorterYAML_Name doc
    ∧ porterv1.PorterApp_Env app = PorterYAML_Env doc
    ∧ (is_Some (porterv1.PorterApp_Build app) ↔ is_Some (PorterYAML_Build doc))
    ∧ (is_Some (porterv1.PorterApp_Image app) ↔ is_Some (PorterYAML_Image doc))
    ∧ match PorterYAML_Predeploy doc with
      | Some predeploy =>
          ∃ s, porterv1.PorterApp_Predeploy app = Some s
               ∧ serviceProtoFromConfig predeploy porterv1.ServiceType_SERVICE_TYPE_JOB
                 = Ok s
      | None => porterv1.PorterApp_Predeploy app = None
      end.
Proof.
  unfold appProtoFromPorterYAML.
  destruct (PorterYAML_Services doc) as [yamlServices|]; [|done].
  destruct (servicesFromYaml yamlServices) as [services|e] eqn:Hservices;
    cbn [mbind result_bind bind]; [|done].
  intros Happ. exists yamlServices. split; [done|].
  assert (∀ A B (f : A → B) (o : option A),
            is_Some (match o with Some a => Some (f a) | None => None end) ↔ is_Some o)
    as Hsome by (intros A B f [a|]; rewrite <- ?not_eq_None_Some; naive_solver).
  destruct (PorterYAML_Predeploy doc) as [predeploy|].
  - destruct (serviceProtoFromConfig predeploy _) as [s|e] eqn:Hs;
      cbn [wrap mbind result_bind bind] in Happ; [|done].
    injection Happ as <-. cbn [porterv1.PorterApp_Services porterv1.PorterApp_Name
      porterv1.PorterApp_Env porterv1.PorterApp_Build porterv1.PorterApp_Image
      porterv1.PorterApp_Predeploy].
    rewrite !Hsome. eauto 10.
  - injection Happ as <-. cbn [porterv1.PorterApp_Services porterv1.PorterApp_Name
      porterv1.PorterApp_Env porterv1.PorterApp_Build porterv1.PorterApp_Image
      porterv1.PorterApp_Predeploy].
    rewrite !Hsome. eauto 10.
Qed.

(** Canonicalization succeeds as soon as the document has the [services]
    key and the kind of every service can be resolved. *)
Lemma appProtoFromPorterYAML_total (doc : PorterYAML) (yamlServices : gmap string Service) :
  PorterYAML_Services doc = Some yamlServices →
  map_Forall (λ name service, is_Ok (protoEnumFromType name service) = true) yamlServices →
  is_Ok (appProtoFromPorterYAML doc) = true.
Proof.
  intros Hdoc Hall. unfold appProtoFromPorterYAML. rewrite Hdoc.
  assert (is_Ok (servicesFromYaml yamlServices) = true) as Hok.
  { apply servicesFromYaml_spec. intros name service Hname.
    by apply serviceFromYaml_total, (Hall name). }
  destruct (servicesFromYaml yamlServices) as [services|e]; [|done].
  cbn [mbind result_bind bind]. by destruct (PorterYAML_Predeploy doc).
Qed.

(** C9: in the result of a successful canonicalization the config variant of
    every service is the one of its type, no service has the unspecified
    type, and the predeploy slot is a job with a job config. *)
Theorem canonical_services_match_type (doc : PorterYAML) (app : porterv1.PorterApp) :
  appProtoFromPorterYAML doc = Ok app →
  (∀ name s, porterv1.PorterApp_Services app !! name = Some s →
     config_matches_type s
     ∧ porterv1.Service_Type s ≠ porterv1.ServiceType_SERVICE_TYPE_UNSPECIFIED)
  ∧ (∀ s, porterv1.PorterApp_Predeploy app = Some s →
       config_matches_type s
       ∧ porterv1.Service_Type s = porterv1.ServiceType_SERVICE_TYPE_JOB).
Proof.
  intros (yamlServices & _ & Hservices & _ & _ & _ & _ & Hpredeploy)%appProtoFromPorterYAML_Ok.
  split.
  - intros name s Hs.
    destruct (servicesFromYaml_Ok _ _ _ _ Hservices Hs) as (service & _ & Hconv).
    by apply serviceFromYaml_Ok in Hconv.
  - intros s Hs. destruct (PorterYAML_Predeploy doc) as [predeploy|]; [|congruence].
    destruct Hpredeploy as (s' & Hs' & Hconv). rewrite Hs in Hs'. injection Hs' as <-.
    by apply serviceProtoFromConfig_Ok in Hconv as (? & ? & _).
Qed.

Lemma canonical_services_match_type_witness :
  (∀ name s, porterv1.PorterApp_Services testdata.result_nobuild !! name = Some s →
     config_matches_type s
     ∧ porterv1.Service_Type s ≠ porterv1.ServiceType_SERVICE_TYPE_UNSPECIFIED)
  ∧ (∀ s, porterv1.PorterApp_Predeploy testdata.result_nobuild = Some s →
       config_matches_type s
       ∧ porterv1.Service_Type s = porterv1.ServiceType_SERVICE_TYPE_JOB).
Proof.
  apply (canonical_services_match_type testdata.v2_input_nobuild testdata.result_nobuild).
  vm_compute. reflexivity.
Defined.

(** ** The document of the parser's test *)

(** C3: the document v2_input_nobuild canonicalizes to the specification
    that the test expects: the three services under their names and no
    other, the web service with a web config, the worker with a worker
    config, the job with a job config, and a predeploy job whose cron is
    empty and that does not allow concurrent runs. *)
Theorem canonicalize_v2_input_nobuild :
  appProtoFromPorterYAML testdata.v2_input_nobuild = Ok testdata.result_nobuild
  ∧ dom (porterv1.PorterApp_Services testdata.result_nobuild)
    = ({[ "example-web"; "example-wkr"; "example-job" ]} : gset string)
  ∧ porterv1.PorterApp_Services testdata.result_nobuild !! "example-web"
    = Some testdata.result_example_web
  ∧ porterv1.PorterApp_Services testdata.result_nobuild !! "example-wkr"
    = Some testdata.result_example_wkr
  ∧ porterv1.PorterApp_Services testdata.result_nobuild !! "example-job"
    = Some testdata.result_example_job
  ∧ (∃ w, porterv1.Service_Config testdata.result_example_web
          = Some (porterv1.Service_WebConfig w))
  ∧ (∃ w, porterv1.Service_Config testdata.result_example_wkr
          = Some (porterv1.Service_WorkerConfig w))
  ∧ (∃ j, porterv1.Service_Config testdata.result_example_job
          = Some (porterv1.Service_JobConfig j))
  ∧ porterv1.PorterApp_Predeploy testdata.result_nobuild
    = Some testdata.result_predeploy
  ∧ porterv1.Service_Type testdata.result_predeploy
    = porterv1.ServiceType_SERVICE_TYPE_JOB
  ∧ porterv1.Service_Config testdata.result_predeploy
    = Some (porterv1.Service_JobConfig
              {| porterv1.JobServiceConfig_AllowConcurrent := false;
                 porterv1.JobServiceConfig_Cron := "" |}).
Proof.
  split; [vm_compute; reflexivity|].
  split; [vm_compute; reflexivity|].
  repeat split; try (vm_compute; reflexivity); by eexists.
Qed.

(** ** Fields of another kind *)

(** C4: a web service that sets the job keys [cron] and [allowConcurrent]
    is accepted, and its result is the one of the same service without
    them; a job that sets [domains], [healthCheck] and [autoscaling] is
    accepted and yields the job of the test document.  The foreign keys are
    dropped, no error is raised. *)
Theorem foreign_fields_are_dropped :
  serviceFromYaml "example-web" testdata.web_with_cron
    = serviceFromYaml "example-web" testdata.web_without_cron
  ∧ is_Ok (serviceFromYaml "example-web" testdata.web_with_cron) = true
  ∧ serviceFromYaml "example-job" testdata.job_with_domains
    = Ok testdata.result_example_job
  ∧ is_Ok (appProtoFromPorterYAML
             (with_Build_Image
                {| PorterYAML_Name := "js-test-app";
                   PorterYAML_Services :=
                     Some (<["example-web" := testdata.web_with_cron]>
                           (<["example-job" := testdata.job_with_domains]> ∅));
                   PorterYAML_Image := None; PorterYAML_Build := None;
                   PorterYAML_Env := ∅; PorterYAML_Predeploy := None |}
                None (Some {| Image_Repository := "nginx"; Image_Tag := "latest" |})))
    = true.
Proof. repeat split; vm_compute; reflexivity. Qed.

(** ** Build and image *)

(** A document with both keys is accepted and its specification has both
    a build and an image; a document with neither is accepted and its
    specification has neither. *)
Lemma build_and_image_both_or_neither :
  (∃ app, appProtoFromPorterYAML testdata.build_and_image = Ok app
          ∧ is_Some (porterv1.PorterApp_Build app)
          ∧ is_Some (porterv1.PorterApp_Image app))
  ∧ (∃ app, appProtoFromPorterYAML testdata.no_build_no_image = Ok app
            ∧ porterv1.PorterApp_Build app = None
            ∧ porterv1.PorterApp_Image app = None).
Proof.
  split; eexists; (split; [vm_compute; reflexivity|]); simpl; eauto.
Qed.

Lemma appProtoFromPorterYAML_build_image (doc : PorterYAML)
    (build : option Build) (image : option Image) :
  is_Ok (appProtoFromPorterYAML (with_Build_Image doc build image))
  = is_Ok (appProtoFromPorterYAML doc).
Proof.
  unfold appProtoFromPorterYAML, with_Build_Image. simpl.
  destruct (PorterYAML_Services doc) as [yamlServices|]; [|done].
  destruct (servicesFromYaml yamlServices); cbn [mbind result_bind bind]; [|done].
  destruct (PorterYAML_Predeploy doc) as [predeploy|]; [|done].
  by destruct (serviceProtoFromConfig predeploy porterv1.ServiceType_SERVICE_TYPE_JOB).
Qed.

(** C5, as the code has it: the [build] key and the [image] key are read
    independently of each other.  The specification has a build exactly
    when the document has the [build] key and an image exactly when it has
    the [image] key, and neither key has a part in whether canonicalization
    succeeds. *)
Theorem build_and_image_are_independent (doc : PorterYAML) (app : porterv1.PorterApp) :
  appProtoFromPorterYAML doc = Ok app →
  (is_Some (porterv1.PorterApp_Build app) ↔ is_Some (PorterYAML_Build doc))
  ∧ (is_Some (porterv1.PorterApp_Image app) ↔ is_Some (PorterYAML_Image doc))
  ∧ ∀ build image,
      is_Ok (appProtoFromPorterYAML (with_Build_Image doc build image)) = true.
Proof.
  intros Happ. split_and!.
  - by apply appProtoFromPorterYAML_Ok in Happ as (? & _ & _ & _ & _ & ? & _).
  - by apply appProtoFromPorterYAML_Ok in Happ as (? & _ & _ & _ & _ & _ & ? & _).
  - intros build image. by rewrite appProtoFromPorterYAML_build_image, Happ.
Qed.

Lemma build_and_image_are_independent_witness :
  (is_Some (porterv1.PorterApp_Build testdata.result_nobuild)
   ↔ is_Some (PorterYAML_Build testdata.v2_input_nobuild))
  ∧ (is_Some (porterv1.PorterApp_Image testdata.result_nobuild)
     ↔ is_Some (PorterYAML_Image testdata.v2_input_nobuild))
  ∧ ∀ build image,
      is_Ok (appProtoFromPorterYAML
               (with_Build_Image testdata.v2_input_nobuild build image)) = true.
Proof.
  apply (build_and_image_are_independent testdata.v2_input_nobuild testdata.result_nobuild).
  vm_compute. reflexivity.
Defined.

(** ** Required keys *)

(** A document without the [name] key is accepted; the name of its
    specification is empty. *)
Lemma missing_name_is_accepted :
  PorterYAML_Name testdata.no_name = ""
  ∧ ∃ app, appProtoFromPorterYAML testdata.no_name = Ok app
           ∧ porterv1.PorterApp_Name app = "".
Proof.
  split; [reflexivity|]. eexists. split; [vm_compute; reflexivity|]. reflexivity.
Qed.

Lemma appProtoFromPorterYAML_with_Name (doc : PorterYAML) (name : string) :
  is_Ok (appProtoFromPorterYAML (with_Name doc name))
  = is_Ok (appProtoFromPorterYAML doc).
Proof.
  unfold appProtoFromPorterYAML, with_Name. simpl.
  destruct (PorterYAML_Services doc) as [yamlServices|]; [|done].
  destruct (servicesFromYaml yamlServices); cbn [mbind result_bind bind]; [|done].
  destruct (PorterYAML_Predeploy doc) as [predeploy|]; [|done].
  by destruct (serviceProtoFromConfig predeploy porterv1.ServiceType_SERVICE_TYPE_JOB).
Qed.

(** C6, as the code has it: parsing fails on a nil input, on a document
    that the YAML library rejects, and on a document without the
    [services] key.  The [name] key is not looked at: whether parsing
    succeeds does not depend on the name, and the name of the specification
    is the one of the document, empty when the key is absent. *)
Theorem AppProtoFromYaml_failures (yaml_Unmarshal : list Byte.byte → result PorterYAML) :
  AppProtoFromYaml yaml_Unmarshal None
    = Err (telemetry_Error nil_error "porter yaml is nil")
  ∧ (∀ bytes e, yaml_Unmarshal bytes = Err e →
       AppProtoFromYaml yaml_Unmarshal (Some bytes)
       = Err (telemetry_Error e "error unmarshaling porter yaml"))
  ∧ (∀ bytes doc, yaml_Unmarshal bytes = Ok doc → PorterYAML_Services doc = None →
       AppProtoFromYaml yaml_Unmarshal (Some bytes)
       = Err (telemetry_Error nil_error "porter yaml is missing services"))
  ∧ (∀ bytes doc name, yaml_Unmarshal bytes = Ok doc →
       is_Ok (AppProtoFromYaml yaml_Unmarshal (Some bytes))
       = is_Ok (appProtoFromPorterYAML (with_Name doc name)))
  ∧ (∀ bytes doc app, yaml_Unmarshal bytes = Ok doc →
       AppProtoFromYaml yaml_Unmarshal (Some bytes) = Ok app →
       porterv1.PorterApp_Name app = PorterYAML_Name doc).
Proof.
  unfold AppProtoFromYaml. split_and!.
  - done.
  - by intros bytes e ->.
  - intros bytes doc -> Hservices. simpl. unfold appProtoFromPorterYAML.
    by rewrite Hservices.
  - intros bytes doc name ->. simpl. by rewrite appProtoFromPorterYAML_with_Name.
  - intros bytes doc app ->. simpl.
    by intros (? & _ & _ & ? & _)%appProtoFromPorterYAML_Ok.
Qed.

Lemma AppProtoFromYaml_failures_witness :
  is_Ok (AppProtoFromYaml testdata.example_Unmarshal None) = false
  ∧ is_Ok (AppProtoFromYaml testdata.example_Unmarshal (Some [Byte.x7b])) = false
  ∧ is_Ok (AppProtoFromYaml testdata.example_Unmarshal (Some [])) = false
  ∧ is_Ok (AppProtoFromYaml testdata.example_Unmarshal (Some [Byte.x6e])) = true.
Proof.
  destruct (AppProtoFromYaml_failures testdata.example_Unmarshal)
    as (Hnil & Hsyntax & Hservices & Hname & _).
  split_and!.
  - by rewrite Hnil.
  - by rewrite (Hsyntax [Byte.x7b] _ eq_refl).
  - by rewrite (Hservices [] testdata.no_services eq_refl eq_refl).
  - rewrite (Hname [Byte.x6e] testdata.no_name "js-test-app" eq_refl).
    vm_compute. reflexivity.
Defined.

(** ** From the form to the specification *)

Import services porter_apps.

(** C10: the specification built from a form never has both an image and a
    build.  With a github source it has the build of the form and no
    image; with a docker-registry source it has the image of the source, no
    build and no predeploy slot, whatever the services of the form are,
    also when one of them is the predeploy service, which the github
    source does carry over. *)
Theorem clientAppToProto_one_source (app : ClientPorterApp) :
  (∀ git_repo_id git_branch git_repo_name porter_yaml_path,
     let proto :=
       clientAppToProto
         {| PorterAppFormData_app := app;
            PorterAppFormData_source :=
              SourceOptions_github git_repo_id git_branch git_repo_name porter_yaml_path |} in
     porterv1.PorterApp_Build proto = Some (clientBuildToProto (ClientPorterApp_build app))
     ∧ porterv1.PorterApp_Image proto = None
     ∧ (∀ predeploy,
          List.find isPredeployService (ClientPorterApp_services app) = Some predeploy →
          porterv1.PorterApp_Predeploy proto
          = Some (serviceProto (serializeService predeploy))))
  ∧ (∀ repository tag,
       let proto :=
         clientAppToProto
           {| PorterAppFormData_app := app;
              PorterAppFormData_source := SourceOptions_docker_registry repository tag |} in
       porterv1.PorterApp_Image proto
       = Some {| porterv1.AppImage_Repository := repository;
                 porterv1.AppImage_Tag := tag |}
       ∧ porterv1.PorterApp_Build proto = None
       ∧ porterv1.PorterApp_Predeploy proto = None)
  ∧ (∀ source,
       let proto :=
         clientAppToProto
           {| PorterAppFormData_app := app; PorterAppFormData_source := source |} in
       ¬ (is_Some (porterv1.PorterApp_Build proto)
          ∧ is_Some (porterv1.PorterApp_Image proto))).
Proof.
  split_and!.
  - intros. subst proto. unfold clientAppToProto. simpl. split_and!; [done..|].
    by intros predeploy ->.
  - done.
  - intros [] proto [[b Hb] [i Hi]]; subst proto; simpl in *; congruence.
Qed.

(** The form [form_app] has a predeploy service: the github source carries
    it over, the docker-registry source does not. *)
Lemma clientAppToProto_one_source_witness :
  is_Some (porterv1.PorterApp_Predeploy
             (clientAppToProto
                {| PorterAppFormData_app := examples.form_app;
                   PorterAppFormData_source :=
                     SourceOptions_github 1 "main" "porter-dev/porter" "./porter.yaml" |}))
  ∧ porterv1.PorterApp_Predeploy
      (clientAppToProto
         {| PorterAppFormData_app := examples.form_app;
            PorterAppFormData_source := SourceOptions_docker_registry "nginx" "latest" |})
    = None.
Proof.
  destruct (clientAppToProto_one_source examples.form_app) as (Hgithub & Hdocker & _).
  split.
  - destruct (Hgithub 1 "main" "porter-dev/porter" "./porter.yaml") as (_ & _ & Hpredeploy).
    rewrite (Hpredeploy (examples.form_service "pre-deploy" Client_predeploy) eq_refl).
    by eexists.
  - apply (Hdocker "nginx" "latest").
Defined.

(** ** From the specification to the form *)

Section reconcile.

Variable sourceLocked : SerializedService → string → bool.

Lemma field_idem {T} (service : SerializedService) (path : string)
    (canonical : T) (override : option T) :
  field sourceLocked service path canonical
        (Some (value (field sourceLocked service path canonical override)))
  = field sourceLocked service path canonical override.
Proof. unfold field. by destruct (sourceLocked service path). Qed.

Lemma deserializeAutoscaling_idem (service : SerializedService)
    (a : SerializedAutoscaling) (override : option SerializedAutoscaling) :
  deserializeAutoscaling sourceLocked service a
    (Some (serializeAutoscaling (deserializeAutoscaling sourceLocked service a override)))
  = deserializeAutoscaling sourceLocked service a override.
Proof. unfold deserializeAutoscaling. simpl. f_equal; apply field_idem. Qed.

Lemma deserializeHealthCheck_idem (service : SerializedService)
    (h : SerializedHealthCheck) (override : option SerializedHealthCheck) :
  deserializeHealthCheck sourceLocked service h
    (Some (serializeHealthCheck (deserializeHealthCheck sourceLocked service h override)))
  = deserializeHealthCheck sourceLocked service h override.
Proof. unfold deserializeHealthCheck. simpl. f_equal; apply field_idem. Qed.

Lemma deserializeDomains_idem (service : SerializedService)
    (d : list string) (override : option (list string)) :
  deserializeDomains sourceLocked service d
    (Some (value <$> deserializeDomains sourceLocked service d override))
  = deserializeDomains sourceLocked service d override.
Proof.
  unfold deserializeDomains. destruct (sourceLocked service "config.domains"); [done|].
  simpl. rewrite <- !list_fmap_compose. by apply list_fmap_ext.
Qed.

Lemma deserializeService_name (service : SerializedService)
    (override : option SerializedService) :
  value (Client_name (deserializeService sourceLocked service override))
  = Serialized_name service.
Proof.
  unfold deserializeService, field. simpl.
  destruct (sourceLocked service "name"); [done|].
  destruct override as [o|]; simpl; [|done].
  case_decide as Hsame; simpl; [apply Hsame | done].
Qed.

Lemma deserializeService_type (service : SerializedService)
    (override : option SerializedService) :
  Client_type (Client_config (deserializeService sourceLocked service override))
  = Serialized_type (Serialized_config service).
Proof. unfold deserializeService. simpl. by destruct (Serialized_config service). Qed.

Lemma serializeService_type (service : ClientService) :
  Serialized_type (Serialized_config (serializeService service))
  = Client_type (Client_config service).
Proof. by destruct service as [? ? ? ? ? ? [] ?]. Qed.

(** Merging a service with its own form state changes nothing. *)
Lemma deserializeService_idem (service : SerializedService)
    (override : option SerializedService) :
  deserializeService sourceLocked service
    (Some (serializeService (deserializeService sourceLocked service override)))
  = deserializeService sourceLocked service override.
Proof.
  pose proof (deserializeService_name service override) as Hname.
  pose proof (deserializeService_type service override) as Htype.
  rewrite <- serializeService_type in Htype.
  set (c := deserializeService sourceLocked service override) in *.
  unfold deserializeService at 1. simpl mbind.
  rewrite decide_True by done. subst c. clear Hname Htype.
  unfold deserializeService. simpl.
  destruct (Serialized_config service) as [a h d|a|a cr|]; simpl;
    f_equal; try apply field_idem; f_equal;
    first [ apply deserializeAutoscaling_idem | apply deserializeHealthCheck_idem
          | apply deserializeDomains_idem | apply field_idem | idtac ].
Qed.

Lemma withOverride_name (overrides : option DetectedServices) (svc : SerializedService) :
  value (Client_name (withOverride sourceLocked overrides svc)) = Serialized_name svc.
Proof. unfold withOverride. case_match; apply deserializeService_name. Qed.

Lemma withOverride_type (overrides : option DetectedServices) (svc : SerializedService) :
  Client_type (Client_config (withOverride sourceLocked overrides svc))
  = Serialized_type (Serialized_config svc).
Proof. unfold withOverride. case_match; apply deserializeService_type. Qed.

Lemma withOverride_idem (overrides : option DetectedServices) (svc : SerializedService) :
  deserializeService sourceLocked svc
    (Some (serializeService (withOverride sourceLocked overrides svc)))
  = withOverride sourceLocked overrides svc.
Proof. unfold withOverride. case_match; apply deserializeService_idem. Qed.

Lemma serializedServiceFromProto_Some (name : string) (service : porterv1.Service)
    (isPredeploy : bool) (svc : SerializedService) :
  serializedServiceFromProto name service isPredeploy = Some svc →
  Serialized_name svc = name
  ∧ (Serialized_type (Serialized_config svc) = type_predeploy ↔ isPredeploy = true).
Proof.
  unfold serializedServiceFromProto, configFromProto.
  destruct isPredeploy; simpl.
  - by intros [= <-].
  - destruct (porterv1.Service_Config service) as [[w|w|j]|]; simpl; [..|done];
      intros [= <-]; simpl; naive_solver.
Qed.

(** The services read off the specification: their names are the keys
    of its map of services, each once, and none is the predeploy
    variant. *)
Lemma serialized_services (proto : porterv1.PorterApp) (serialized : list SerializedService) :
  mapM (λ '(name, service), serializedServiceFromProto name service false)
       (map_to_list (porterv1.PorterApp_Services proto)) = Some serialized →
  NoDup (Serialized_name <$> serialized)
  ∧ Forall (λ svc, Serialized_name svc ∈ dom (porterv1.PorterApp_Services proto)
                   ∧ Serialized_type (Serialized_config svc) ≠ type_predeploy)
           serialized.
Proof.
  intros Hall%mapM_Some.
  assert (Serialized_name <$> serialized
          = (map_to_list (porterv1.PorterApp_Services proto)).*1) as Hnames.
  { induction Hall as [|[name service] svc l k Hsvc _ IH]; [done|].
    apply serializedServiceFromProto_Some in Hsvc as [Hname _]. simpl. by f_equal. }
  split; [rewrite Hnames; apply NoDup_fst_map_to_list|].
  assert (Forall (λ '(name, _), name ∈ dom (porterv1.PorterApp_Services proto))
                 (map_to_list (porterv1.PorterApp_Services proto))) as Hdom.
  { apply Forall_forall. intros [name service] Hin%elem_of_map_to_list.
    apply elem_of_dom. by eexists. }
  clear Hnames. revert Hdom.
  induction Hall as [|[name service] svc l k Hsvc _ IH]; intros Hdom; [constructor|].
  apply Forall_cons in Hdom as [Hname Hdom]. constructor; [|by apply IH].
  apply serializedServiceFromProto_Some in Hsvc as [-> Htype].
  split; [done|]. intros Hpre%Htype. discriminate.
Qed.

(** A specification whose services all carry a config variant can be
    read. *)
Lemma serialized_services_total (proto : porterv1.PorterApp) :
  has_configs proto →
  is_Some (mapM (λ '(name, service), serializedServiceFromProto name service false)
                (map_to_list (porterv1.PorterApp_Services proto))).
Proof.
  intros Hconfigs. apply mapM_is_Some, Forall_forall.
  intros [name service] Hin%elem_of_map_to_list.
  destruct (Hconfigs name service Hin) as [config Hconfig].
  unfold serializedServiceFromProto, configFromProto. simpl. rewrite Hconfig.
  destruct config; by eexists.
Qed.

Lemma find_filter_implied {A} (p q : A → bool) (l : list A) :
  (∀ x, p x = true → q x = true) →
  List.find p (List.filter q l) = List.find p l.
Proof.
  intros Hpq. induction l as [|x l IH]; [done|]. simpl.
  destruct (q x) eqn:Hq; simpl.
  - by rewrite IH.
  - destruct (p x) eqn:Hp; [|done]. apply Hpq in Hp. congruence.
Qed.

(** In a list of form services made from services of distinct names,
    the lookup by name finds the one made from the service looked for. *)
Lemma find_by_name (g : SerializedService → ClientService)
    (serialized : list SerializedService) (svc : SerializedService) :
  (∀ x, value (Client_name (g x)) = Serialized_name x) →
  NoDup (Serialized_name <$> serialized) → svc ∈ serialized →
  List.find (λ s, String.eqb (value (Client_name s)) (Serialized_name svc))
            (g <$> serialized)
  = Some (g svc).
Proof.
  intros Hg. induction serialized as [|x l IH]; intros Hnodup Hin.
  - by apply elem_of_nil in Hin.
  - apply NoDup_cons in Hnodup as [Hx Hnodup]. simpl. rewrite Hg.
    apply elem_of_cons in Hin as [->|Hin].
    + by rewrite String.eqb_refl.
    + destruct (String.eqb_spec (Serialized_name x) (Serialized_name svc)) as [Heq|_].
      * destruct Hx. rewrite Heq. by apply list_elem_of_fmap_2.
      * by apply IH.
Qed.

Lemma filter_not_predeploy (serialized : list SerializedService)
    (g : SerializedService → ClientService) (predeploy : list ClientService) :
  (∀ x, Client_type (Client_config (g x)) = Serialized_type (Serialized_config x)) →
  Forall (λ svc, Serialized_type (Serialized_config svc) ≠ type_predeploy) serialized →
  Forall (λ s, isPredeployService s = true) predeploy →
  List.filter (λ s, negb (isPredeployService s)) ((g <$> serialized) ++ predeploy)
  = g <$> serialized
  ∧ List.find isPredeployService ((g <$> serialized) ++ predeploy) = head predeploy.
Proof.
  intros Hg Hserialized Hpredeploy.
  induction Hserialized as [|x l Hx _ IH].
  - simpl. split.
    + induction Hpredeploy as [|s k Hs _ IHk]; [done|]. simpl. by rewrite Hs.
    + destruct Hpredeploy as [|s k Hs _]; [done|]. simpl. by rewrite Hs.
  - assert (isPredeployService (g x) = false) as Hfalse.
    { unfold isPredeployService. rewrite Hg. by apply bool_decide_eq_false. }
    rewrite fmap_cons, <- app_comm_cons. cbn [List.filter List.find].
    rewrite Hfalse. cbn [negb]. by destruct IH as [-> ->].
Qed.
End reconcile.


(** The services of the reconciled form state: the services of the
    specification, each merged with its override, and then the predeploy
    service when both the overrides and the specification have one. *)
Lemma clientAppFromProto_inv (sourceLocked : SerializedService → string → bool)
    (proto : porterv1.PorterApp) (overrides : option DetectedServices)
    (app : ClientPorterApp) :
  clientAppFromProto sourceLocked proto overrides = Some app →
  ∃ serialized predeploy,
    mapM (λ '(name, service), serializedServiceFromProto name service false)
         (map_to_list (porterv1.PorterApp_Services proto)) = Some serialized
    ∧ ClientPorterApp_services app
      = ((withOverride sourceLocked overrides <$> serialized) ++ predeploy)%list
    ∧ match overrides ≫= DetectedServices_predeploy, porterv1.PorterApp_Predeploy proto with
      | Some overridesPredeploy, Some protoPredeploy =>
          ∃ svc, serializedServiceFromProto "pre-deploy" protoPredeploy true = Some svc
                 ∧ predeploy = [deserializeService sourceLocked svc
                                  (Some (serializeService overridesPredeploy))]
      | _, _ => predeploy = []
      end.
Proof.
  unfold clientAppFromProto.
  destruct (mapM _ _) as [serialized|]; simpl; [|done].
  intros Happ. exists serialized.
  destruct (overrides ≫= DetectedServices_predeploy) as [overridesPredeploy|].
  - destruct (porterv1.PorterApp_Predeploy proto) as [protoPredeploy|]; simpl in Happ.
    + injection Happ as <-. eexists. split_and!; [done..|]. by eexists.
    + injection Happ as <-. by eexists.
  - injection Happ as <-. exists []. by rewrite app_nil_r.
Qed.

(** A specification whose services all carry a config variant has a form
    state, whatever the overrides are. *)
Lemma clientAppFromProto_total (sourceLocked : SerializedService → string → bool)
    (proto : porterv1.PorterApp) (overrides : option DetectedServices) :
  has_configs proto →
  is_Some (clientAppFromProto sourceLocked proto overrides).
Proof.
  intros [serialized Hserialized]%serialized_services_total.
  unfold clientAppFromProto. rewrite Hserialized. cbn [mbind option_bind].
  destruct (overrides ≫= DetectedServices_predeploy); [|by eexists].
  destruct (porterv1.PorterApp_Predeploy proto); by eexists.
Qed.

Lemma withOverride_dropStale (sourceLocked : SerializedService → string → bool)
    (proto : porterv1.PorterApp) (overrides : option DetectedServices)
    (svc : SerializedService) :
  Serialized_name svc ∈ dom (porterv1.PorterApp_Services proto) →
  withOverride sourceLocked (dropStale proto <$> overrides) svc
  = withOverride sourceLocked overrides svc.
Proof.
  intros Hdom. unfold withOverride. destruct overrides as [o|]; [|done]. simpl.
  rewrite find_filter_implied; [done|].
  intros s ->%String.eqb_eq. by apply bool_decide_eq_true.
Qed.

(** C8: the reconciled form state has no service that the specification
    does not declare.  Every service in it that is not the predeploy
    service has the name of a service of the specification, so that an
    override under any other name is absent from it; the predeploy service
    is in it only when the specification has a predeploy slot; and the
    result is the same as without the stale overrides, which therefore
    leave no trace in it. *)
Theorem stale_overrides_are_dropped (sourceLocked : SerializedService → string → bool)
    (proto : porterv1.PorterApp) (overrides : option DetectedServices)
    (app : ClientPorterApp) :
  clientAppFromProto sourceLocked proto overrides = Some app →
  (∀ s, s ∈ ClientPorterApp_services app → isPredeployService s = false →
     value (Client_name s) ∈ dom (porterv1.PorterApp_Services proto))
  ∧ (∀ s, s ∈ ClientPorterApp_services app → isPredeployService s = true →
       is_Some (porterv1.PorterApp_Predeploy proto))
  ∧ clientAppFromProto sourceLocked proto (dropStale proto <$> overrides) = Some app.
Proof.
  intros Happ.
  destruct (clientAppFromProto_inv _ _ _ _ Happ)
    as (serialized & predeploy & Hserialized & Hservices & Hpredeploy).
  destruct (serialized_services proto serialized Hserialized) as [_ Hall].
  rewrite Forall_forall in Hall.
  split_and!.
  - intros s Hs Hnot. rewrite Hservices in Hs.
    apply elem_of_app in Hs as [(svc & -> & Hsvc)%list_elem_of_fmap|Hs].
    + rewrite withOverride_name. by apply Hall.
    + destruct (overrides ≫= DetectedServices_predeploy) as [overridesPredeploy|];
        [destruct (porterv1.PorterApp_Predeploy proto) as [protoPredeploy|]|];
        [|subst predeploy; by apply elem_of_nil in Hs..].
      destruct Hpredeploy as (svc & Hsvc & ->).
      apply list_elem_of_singleton in Hs as ->.
      apply serializedServiceFromProto_Some in Hsvc as [_ Htype].
      unfold isPredeployService in Hnot. apply bool_decide_eq_false in Hnot.
      destruct Hnot. rewrite deserializeService_type. by apply Htype.
  - intros s Hs Hpre. rewrite Hservices in Hs.
    apply elem_of_app in Hs as [(svc & -> & Hsvc)%list_elem_of_fmap|Hs].
    + unfold isPredeployService in Hpre. apply bool_decide_eq_true in Hpre.
      rewrite withOverride_type in Hpre. by destruct (Hall svc Hsvc) as [_ []].
    + destruct (overrides ≫= DetectedServices_predeploy) as [overridesPredeploy|];
        [destruct (porterv1.PorterApp_Predeploy proto) as [protoPredeploy|]|];
        [by eexists|subst predeploy; by apply elem_of_nil in Hs..].
  - clear Hservices Hpredeploy predeploy.
    unfold clientAppFromProto in *. rewrite Hserialized in *. simpl in *.
    assert (withOverride sourceLocked (dropStale proto <$> overrides) <$> serialized
            = withOverride sourceLocked overrides <$> serialized) as ->.
    { apply list_fmap_ext. intros i svc Hsvc%list_elem_of_lookup_2.
      apply withOverride_dropStale. by apply Hall. }
    destruct overrides as [o|]; [|done]. simpl in *.
    destruct (porterv1.PorterApp_Predeploy proto) as [protoPredeploy|]; [done|].
    destruct (DetectedServices_predeploy o); [|done].
    simpl in Happ. by rewrite app_nil_r in Happ.
Qed.

Lemma stale_overrides_are_dropped_witness :
  ∃ app,
    clientAppFromProto examples.run_is_locked testdata.result_nobuild (Some examples.prior)
    = Some app
    ∧ ∀ s, s ∈ ClientPorterApp_services app → isPredeployService s = false →
           value (Client_name s) ≠ "old-api".
Proof.
  destruct (clientAppFromProto examples.run_is_locked testdata.result_nobuild
              (Some examples.prior)) as [app|] eqn:Happ;
    [|vm_compute in Happ; discriminate].
  exists app. split; [reflexivity|].
  destruct (stale_overrides_are_dropped _ _ _ _ Happ) as (Hnames & _ & _).
  intros s Hs Hnot Hold. specialize (Hnames s Hs Hnot). rewrite Hold in Hnames.
  apply elem_of_dom in Hnames as [service Hservice].
  vm_compute in Hservice. discriminate.
Defined.

(** ** Reconciliation *)

(** The overrides that the form state [l] gives when it is the services
    made from the specification followed by predeploy services: every
    service of the specification finds its own form state again. *)
Lemma reconcile_again (sourceLocked : SerializedService → string → bool)
    (proto : porterv1.PorterApp) (m : option DetectedServices)
    (serialized : list SerializedService) (predeploy l : list ClientService) :
  mapM (λ '(name, service), serializedServiceFromProto name service false)
       (map_to_list (porterv1.PorterApp_Services proto)) = Some serialized →
  Forall (λ s, isPredeployService s = true) predeploy →
  l = ((withOverride sourceLocked m <$> serialized) ++ predeploy)%list →
  let again :=
    {| DetectedServices_services := List.filter (λ s, negb (isPredeployService s)) l;
       DetectedServices_predeploy := List.find isPredeployService l |} in
  withOverride sourceLocked (Some again) <$> serialized
  = withOverride sourceLocked m <$> serialized
  ∧ List.find isPredeployService l = head predeploy.
Proof.
  intros Hserialized Hpredeploy -> again.
  destruct (serialized_services proto serialized Hserialized) as [Hnodup Hall].
  destruct (filter_not_predeploy serialized (withOverride sourceLocked m) predeploy)
    as [Hfilter Hfind]; [apply withOverride_type| |done|].
  { eapply Forall_impl; [exact Hall|]. by intros svc [_ ?]. }
  split; [|exact Hfind].
  apply list_fmap_ext. intros i svc Hsvc%list_elem_of_lookup_2.
  unfold withOverride at 1. subst again. simpl. rewrite Hfilter.
  rewrite (find_by_name (withOverride sourceLocked m) serialized svc);
    [|apply withOverride_name|done..].
  apply withOverride_idem.
Qed.

(** C7: reconciliation is idempotent.  For a specification whose services
    all carry a config variant and for any prior state [m], the reconciled
    form state exists, and reconciling the same specification once more,
    with that form state as the prior state, gives it back unchanged. *)
Theorem reconciliation_is_idempotent (sourceLocked : SerializedService → string → bool)
    (proto : porterv1.PorterApp) (m : option DetectedServices) :
  has_configs proto →
  ∃ app,
    clientAppFromProto sourceLocked proto m = Some app
    ∧ clientAppFromProto sourceLocked proto (Some (priorOverrides app)) = Some app.
Proof.
  intros Hconfigs.
  destruct (serialized_services_total proto Hconfigs) as [serialized Hserialized].
  unfold clientAppFromProto, priorOverrides. rewrite Hserialized.
  cbn [mbind option_bind].
  destruct (m ≫= DetectedServices_predeploy) as [overridesPredeploy|] eqn:Hm.
  - destruct (porterv1.PorterApp_Predeploy proto) as [protoPredeploy|] eqn:Hproto.
    + destruct (serializedServiceFromProto "pre-deploy" protoPredeploy true)
        as [svcPredeploy|] eqn:Hsvc; [|done].
      cbn [mbind option_bind]. eexists. split; [reflexivity|].
      cbn [ClientPorterApp_services DetectedServices_predeploy].
      set (predeploy := deserializeService sourceLocked svcPredeploy
                          (Some (serializeService overridesPredeploy))).
      destruct (reconcile_again sourceLocked proto m serialized [predeploy]
                  ((withOverride sourceLocked m <$> serialized) ++ [predeploy])%list
                  Hserialized) as [-> ->]; [|reflexivity|].
      { constructor; [|constructor]. unfold isPredeployService.
        apply bool_decide_eq_true. unfold predeploy. rewrite deserializeService_type.
        by apply serializedServiceFromProto_Some in Hsvc as [_ ->]. }
      cbn [head mbind option_bind]. subst predeploy.
      by rewrite deserializeService_idem.
    + cbn [mbind option_bind]. eexists. split; [reflexivity|].
      cbn [ClientPorterApp_services DetectedServices_predeploy].
      destruct (reconcile_again sourceLocked proto m serialized []
                  ((withOverride sourceLocked m <$> serialized) ++ [])%list
                  Hserialized) as [-> ->]; [constructor|reflexivity|].
      cbn [head]. by rewrite app_nil_r.
  - eexists. split; [reflexivity|].
    cbn [ClientPorterApp_services DetectedServices_predeploy].
    destruct (reconcile_again sourceLocked proto m serialized []
                (withOverride sourceLocked m <$> serialized)
                Hserialized) as [-> ->]; [constructor|by rewrite app_nil_r|].
    done.
Qed.

Lemma reconciliation_is_idempotent_witness :
  ∃ app,
    clientAppFromProto examples.run_is_locked testdata.result_nobuild (Some examples.prior)
    = Some app
    ∧ clientAppFromProto examples.run_is_locked testdata.result_nobuild
        (Some (priorOverrides app)) = Some app.
Proof.
  apply (reconciliation_is_idempotent examples.run_is_locked testdata.result_nobuild
           (Some examples.prior)).
  unfold has_configs. apply (bool_decide_unpack _). vm_compute. exact I.
Defined.

(** * Further properties of the porter.yaml parser *)

Lemma protoEnumFromType_is_Ok (name : string) (service : Service) :
  is_Ok (protoEnumFromType name service) = true ↔ kind_resolvable name service.
Proof.
  unfold protoEnumFromType, kind_resolvable.
  destruct (String.eqb_spec (Service_Type service) "") as [Hnone|Hnone]; simpl.
  - rewrite Hnone.
    destruct (strings_Contains name "web") eqn:Hweb;
      [apply strings_Contains_spec in Hweb|apply strings_Contains_false in Hweb];
      [simpl; intuition idtac|].
    destruct (strings_Contains name "wkr") eqn:Hwkr;
      [apply strings_Contains_spec in Hwkr|apply strings_Contains_false in Hwkr];
      [simpl; intuition idtac|].
    destruct (strings_Contains name "job") eqn:Hjob;
      [apply strings_Contains_spec in Hjob|apply strings_Contains_false in Hjob];
      simpl; intuition (try discriminate).
  - destruct (String.eqb_spec (Service_Type service) "web") as [Hweb|Hweb];
      [simpl; intuition idtac|].
    destruct (String.eqb_spec (Service_Type service) "worker") as [Hworker|Hworker];
      [simpl; intuition idtac|].
    destruct (String.eqb_spec (Service_Type service) "job") as [Hjob|Hjob];
      simpl; intuition (try discriminate).
Qed.

Lemma serviceFromYaml_is_Ok (name : string) (service : Service) :
  is_Ok (serviceFromYaml name service) = is_Ok (protoEnumFromType name service).
Proof.
  destruct (is_Ok (protoEnumFromType name service)) eqn:Hok.
  - by apply serviceFromYaml_total.
  - unfold serviceFromYaml. by destruct (protoEnumFromType name service).
Qed.

Lemma servicesFromYaml_Err (services : gmap string Service) (e : error) :
  servicesFromYaml services = Err e →
  ∃ name service, services !! name = Some service ∧ serviceFromYaml name service = Err e.
Proof.
  unfold servicesFromYaml. revert e.
  apply (map_fold_weak_ind (λ r m, ∀ e, r = Err e →
    ∃ name service, m !! name = Some service ∧ serviceFromYaml name service = Err e)).
  - done.
  - intros name service m r Hname IH e.
    destruct r as [acc|e']; simpl.
    + destruct (serviceFromYaml name service) as [s|e'] eqn:Hs; simpl; [done|].
      intros [= <-]. exists name, service. by rewrite lookup_insert_eq.
    + intros [= <-]. destruct (IH e' eq_refl) as (name' & service' & Hlookup & Hs).
      exists name', service'. split; [|done].
      rewrite lookup_insert_ne; [done|]. intros <-. congruence.
Qed.

(** X1: canonicalization succeeds exactly when the document has the
    [services] key and the kind of every service can be resolved, by its
    [type] or else by its name.  Nothing else in the document can make it
    fail. *)
Theorem canonicalization_succeeds_iff (doc : PorterYAML) :
  is_Ok (appProtoFromPorterYAML doc) = true
  ↔ ∃ yamlServices,
      PorterYAML_Services doc = Some yamlServices
      ∧ ∀ name service, yamlServices !! name = Some service →
                        kind_resolvable name service.
Proof.
  split.
  - destruct (appProtoFromPorterYAML doc) as [app|] eqn:Happ; [intros _|done].
    apply appProtoFromPorterYAML_Ok in Happ as (yamlServices & Hdoc & Hservices & _).
    exists yamlServices. split; [done|]. intros name service Hname.
    apply protoEnumFromType_is_Ok. rewrite <- serviceFromYaml_is_Ok.
    assert (is_Ok (servicesFromYaml yamlServices) = true) as Hok by by rewrite Hservices.
    apply servicesFromYaml_spec in Hok. by apply (Hok name).
  - intros (yamlServices & Hdoc & Hall).
    apply (appProtoFromPorterYAML_total doc yamlServices Hdoc).
    intros name service Hname. by apply protoEnumFromType_is_Ok, Hall.
Qed.

(** X2: every error of the canonicalizer names one of two causes: the
    [services] key is missing, or the kind of some service of the document
    cannot be resolved, and then the error is the one of the kind
    resolution, the invalid literal or the undeterminable name, under the
    message error getting service type.  The errors of the config
    conversion are never returned. *)
Theorem canonicalization_errors (doc : PorterYAML) (e : error) :
  appProtoFromPorterYAML doc = Err e →
  (PorterYAML_Services doc = None
   ∧ e = telemetry_Error nil_error "porter yaml is missing services")
  ∨ ∃ yamlServices name service,
      PorterYAML_Services doc = Some yamlServices
      ∧ yamlServices !! name = Some service
      ∧ ¬ kind_resolvable name service
      ∧ e = telemetry_Error
              (if String.eqb (Service_Type service) ""
               then errors_New "no type provided and could not parse service type from name"
               else fmt_Errorf "invalid service type '%s'" (Service_Type service))
              "error getting service type".
Proof.
  unfold appProtoFromPorterYAML.
  destruct (PorterYAML_Services doc) as [yamlServices|]; [|intros [= <-]; by left].
  destruct (servicesFromYaml yamlServices) as [services|e'] eqn:Hservices;
    cbn [mbind result_bind bind].
  - by destruct (PorterYAML_Predeploy doc) as [predeploy|].
  - intros [= <-]. right.
    apply servicesFromYaml_Err in Hservices as (name & service & Hname & Hs).
    exists yamlServices, name, service. split_and!; [done..| |].
    + intros Hres%protoEnumFromType_is_Ok. rewrite <- serviceFromYaml_is_Ok in Hres.
      by rewrite Hs in Hres.
    + unfold serviceFromYaml in Hs.
      destruct (protoEnumFromType name service) as [t|e0] eqn:Ht; simpl in Hs.
      * apply protoEnumFromType_Ok in Ht as [-> | [-> | ->]]; discriminate.
      * injection Hs as <-. f_equal. unfold protoEnumFromType in Ht.
        destruct (String.eqb (Service_Type service) ""); simpl in Ht;
          repeat case_match; congruence.
Qed.

Lemma canonicalization_errors_witness :
  (PorterYAML_Services more_testdata.unknown_type = None
   ∧ telemetry_Error (fmt_Errorf "invalid service type '%s'" "cron")
                     "error getting service type"
     = telemetry_Error nil_error "porter yaml is missing services")
  ∨ ∃ yamlServices name service,
      PorterYAML_Services more_testdata.unknown_type = Some yamlServices
      ∧ yamlServices !! name = Some service
      ∧ ¬ kind_resolvable name service
      ∧ telemetry_Error (fmt_Errorf "invalid service type '%s'" "cron")
                        "error getting service type"
        = telemetry_Error
            (if String.eqb (Service_Type service) ""
             then errors_New "no type provided and could not parse service type from name"
             else fmt_Errorf "invalid service type '%s'" (Service_Type service))
            "error getting service type".
Proof.
  apply (canonicalization_errors more_testdata.unknown_type).
  vm_compute. reflexivity.
Defined.

(** X3: in a canonical specification the services have exactly the names
    of the services of the document; the name and the environment of the
    application are the ones of the document; and each service keeps the
    run command and the cpu cores of the service declared under its
    name. *)
Theorem canonical_services_keep_names (doc : PorterYAML) (app : porterv1.PorterApp)
    (yamlServices : gmap string Service) :
  appProtoFromPorterYAML doc = Ok app →
  PorterYAML_Services doc = Some yamlServices →
  dom (porterv1.PorterApp_Services app) = dom yamlServices
  ∧ porterv1.PorterApp_Name app = PorterYAML_Name doc
  ∧ porterv1.PorterApp_Env app = PorterYAML_Env doc
  ∧ ∀ name service, yamlServices !! name = Some service →
      ∃ s, porterv1.PorterApp_Services app !! name = Some s
           ∧ porterv1.Service_Run s = Service_Run service
           ∧ porterv1.Service_CpuCores s = Service_CpuCores service.
Proof.
  intros (yamlServices' & Hdoc & Hservices & Hname & Henv & _)%appProtoFromPorterYAML_Ok
    Hdoc'.
  rewrite Hdoc' in Hdoc. injection Hdoc as <-.
  pose proof (proj1 (servicesFromYaml_spec yamlServices) _ Hservices) as Hlookup.
  assert (is_Ok (servicesFromYaml yamlServices) = true) as Hall by by rewrite Hservices.
  apply servicesFromYaml_spec in Hall.
  assert (∀ name service, yamlServices !! name = Some service →
            ∃ s, porterv1.PorterApp_Services app !! name = Some s
                 ∧ serviceFromYaml name service = Ok s) as Hconv.
  { intros name service Hin. specialize (Hall name service Hin). simpl in Hall.
    rewrite Hlookup, Hin. simpl.
    destruct (serviceFromYaml name service) as [s|]; [by exists s|done]. }
  split_and!; [|done..|].
  - apply set_eq. intros name. rewrite !elem_of_dom, Hlookup. split.
    + intros [s Hs]. destruct (yamlServices !! name); [by eexists|done].
    + intros [service Hin]. destruct (Hconv name service Hin) as (s & Hs & _).
      rewrite <- Hlookup, Hs. by eexists.
  - intros name service Hin. destruct (Hconv name service Hin) as (s & Hs & Hfrom).
    exists s. split; [done|].
    unfold serviceFromYaml in Hfrom.
    destruct (protoEnumFromType name service) as [t|]; simpl in Hfrom; [|done].
    unfold serviceProtoFromConfig in Hfrom.
    repeat case_match; simpl in Hfrom; try done; by injection Hfrom as <-.
Qed.

Lemma canonical_services_keep_names_witness :
  dom (porterv1.PorterApp_Services testdata.result_nobuild)
  = dom (<["example-web" := testdata.example_web]>
         (<["example-wkr" := testdata.example_wkr]>
          (<["example-job" := testdata.example_job]> (∅ : gmap string Service))))
  ∧ porterv1.PorterApp_Name testdata.result_nobuild
    = PorterYAML_Name testdata.v2_input_nobuild
  ∧ porterv1.PorterApp_Env testdata.result_nobuild
    = PorterYAML_Env testdata.v2_input_nobuild
  ∧ ∀ name service,
      (<["example-web" := testdata.example_web]>
       (<["example-wkr" := testdata.example_wkr]>
        (<["example-job" := testdata.example_job]> (∅ : gmap string Service))))
      !! name = Some service →
      ∃ s, porterv1.PorterApp_Services testdata.result_nobuild !! name = Some s
           ∧ porterv1.Service_Run s = Service_Run service
           ∧ porterv1.Service_CpuCores s = Service_CpuCores service.
Proof.
  apply (canonical_services_keep_names testdata.v2_input_nobuild).
  - vm_compute. reflexivity.
  - reflexivity.
Defined.

(** X4: the [predeploy] block can never make canonicalization fail, and
    its [type] is not looked at: whatever literal it carries, also one that
    is rejected on a service, the predeploy slot of the specification is a
    job with the run command, the cron and the concurrency flag of the
    block. *)
Theorem predeploy_never_fails (doc : PorterYAML) (predeploy : Service) :
  is_Ok (appProtoFromPorterYAML (with_Predeploy doc (Some predeploy)))
  = is_Ok (appProtoFromPorterYAML (with_Predeploy doc None))
  ∧ ∀ app, appProtoFromPorterYAML (with_Predeploy doc (Some predeploy)) = Ok app →
      ∃ s, porterv1.PorterApp_Predeploy app = Some s
           ∧ porterv1.Service_Type s = porterv1.ServiceType_SERVICE_TYPE_JOB
           ∧ porterv1.Service_Run s = Service_Run predeploy
           ∧ porterv1.Service_Config s
             = Some (porterv1.Service_JobConfig
                       {| porterv1.JobServiceConfig_AllowConcurrent :=
                            Service_AllowConcurrent predeploy;
                          porterv1.JobServiceConfig_Cron := Service_Cron predeploy |}).
Proof.
  unfold appProtoFromPorterYAML, with_Predeploy. simpl.
  destruct (PorterYAML_Services doc) as [yamlServices|]; [|done].
  destruct (servicesFromYaml yamlServices) as [services|e]; simpl; [|done].
  split; [done|]. intros app [= <-]. by eexists.
Qed.

Lemma predeploy_never_fails_witness :
  is_Ok (appProtoFromPorterYAML
           (with_Predeploy testdata.v2_input_nobuild (Some more_testdata.cron_service)))
  = true
  ∧ is_Ok (protoEnumFromType "pre-deploy" more_testdata.cron_service) = false.
Proof.
  split; [|reflexivity].
  destruct (predeploy_never_fails testdata.v2_input_nobuild more_testdata.cron_service)
    as [-> _].
  vm_compute. reflexivity.
Defined.

Lemma int32_in_int32 (x : Z) : in_int32 (int32 x).
Proof.
  unfold in_int32, int32.
  pose proof (Z.mod_pos_bound (x + 2 ^ 31) (2 ^ 32) ltac:(lia)). lia.
Qed.

Lemma int32_id (x : Z) : in_int32 x → int32 x = x.
Proof.
  unfold in_int32, int32. intros Hx.
  rewrite Z.mod_small by lia. lia.
Qed.

Lemma int32_congruent (x : Z) : (int32 x - x) mod 2 ^ 32 = 0.
Proof.
  unfold int32.
  replace ((x + 2 ^ 31) mod 2 ^ 32 - 2 ^ 31 - x)
    with ((x + 2 ^ 31) mod 2 ^ 32 - (x + 2 ^ 31)) by lia.
  rewrite Zminus_mod, Z.mod_mod by lia.
  rewrite Z.sub_diag. reflexivity.
Qed.

(** X5: the instance count, the memory and the port of a converted service
    are 32-bit numbers.  A value of the document that fits 32 bits is kept;
    one that does not is not rejected but wraps around, to the number that
    differs from it by a multiple of 2^32. *)
Theorem numeric_fields_wrap_to_32_bits (service : Service) (t : porterv1.ServiceType)
    (s : porterv1.Service) :
  serviceProtoFromConfig service t = Ok s →
  (in_int32 (porterv1.Service_Instances s)
   ∧ in_int32 (porterv1.Service_RamMegabytes s)
   ∧ in_int32 (porterv1.Service_Port s))
  ∧ ((porterv1.Service_Instances s - Service_Instances service) mod 2 ^ 32 = 0
     ∧ (porterv1.Service_RamMegabytes s - Service_RamMegabytes service) mod 2 ^ 32 = 0
     ∧ (porterv1.Service_Port s - Service_Port service) mod 2 ^ 32 = 0)
  ∧ (in_int32 (Service_Instances service) →
     porterv1.Service_Instances s = Service_Instances service)
  ∧ (in_int32 (Service_RamMegabytes service) →
     porterv1.Service_RamMegabytes s = Service_RamMegabytes service)
  ∧ (in_int32 (Service_Port service) →
     porterv1.Service_Port s = Service_Port service).
Proof.
  intros Hs.
  assert (porterv1.Service_Instances s = int32 (Service_Instances service)
          ∧ porterv1.Service_RamMegabytes s = int32 (Service_RamMegabytes service)
          ∧ porterv1.Service_Port s = int32 (Service_Port service)) as (-> & -> & ->).
  { unfold serviceProtoFromConfig in Hs.
    repeat case_match; try done; by injection Hs as <-. }
  split_and!; auto using int32_in_int32, int32_congruent, int32_id.
Qed.

(** The worker with the port 2^32 + 80 and 2^31 instances is accepted; it
    comes out with the port 80 and -2^31 instances. *)
Lemma numeric_fields_wrap_to_32_bits_witness :
  ∃ s, serviceFromYaml "example-wkr" more_testdata.wide_worker = Ok s
       ∧ in_int32 (porterv1.Service_Port s)
       ∧ porterv1.Service_Port s = 80
       ∧ porterv1.Service_Instances s = - 2147483648
       ∧ porterv1.Service_RamMegabytes s = 256.
Proof.
  eexists. split; [vm_compute; reflexivity|].
  destruct (numeric_fields_wrap_to_32_bits more_testdata.wide_worker
              porterv1.ServiceType_SERVICE_TYPE_WORKER _ eq_refl)
    as ((_ & _ & Hport) & _ & _ & Hram & _).
  split_and!; [exact Hport|reflexivity|reflexivity|].
  apply Hram. unfold in_int32. simpl. lia.
Defined.

Lemma foldl_snoc_fmap {A B} (f : A → B) (l : list A) (acc : list B) :
  foldl (λ out x, (out ++ [f x])%list) acc l = (acc ++ (f <$> l))%list.
Proof.
  revert acc. induction l as [|x l IH]; intros acc; simpl.
  - by rewrite app_nil_r.
  - rewrite IH. by rewrite <- app_assoc.
Qed.

(** X6: a service that converts to a web service carries the domains of
    the document one for one and in the order of the document, duplicates
    included; its autoscaling and health check blocks are present exactly
    when the document has them, no default block is put in. *)
Theorem web_config_keeps_blocks (name : string) (service : Service)
    (s : porterv1.Service) (w : porterv1.WebServiceConfig) :
  serviceFromYaml name service = Ok s →
  porterv1.Service_Config s = Some (porterv1.Service_WebConfig w) →
  porterv1.WebServiceConfig_Domains w
  = (λ d, {| porterv1.Domain_Name := Domains_Name d |}) <$> Service_Domains service
  ∧ (is_Some (porterv1.WebServiceConfig_Autoscaling w)
     ↔ is_Some (Service_Autoscaling service))
  ∧ (is_Some (porterv1.WebServiceConfig_HealthCheck w)
     ↔ is_Some (Service_HealthCheck service)).
Proof.
  unfold serviceFromYaml.
  destruct (protoEnumFromType name service) as [t|]; simpl; [|done].
  unfold serviceProtoFromConfig.
  repeat case_match; simpl; try done; intros [= <-]; simpl; intros [= <-]; simpl.
  rewrite foldl_snoc_fmap. split_and!; [done|..].
  - unfold autoscalingProto. destruct (Service_Autoscaling service);
      rewrite <- ?not_eq_None_Some; intuition congruence.
  - unfold healthCheckProto. destruct (Service_HealthCheck service);
      rewrite <- ?not_eq_None_Some; intuition congruence.
Qed.

Lemma web_config_keeps_blocks_witness :
  ∃ w, porterv1.Service_Config testdata.result_example_web
       = Some (porterv1.Service_WebConfig w)
       ∧ porterv1.WebServiceConfig_Domains w
         = [ {| porterv1.Domain_Name := "test1.example.com" |};
             {| porterv1.Domain_Name := "test2.example.com" |} ]
       ∧ is_Some (porterv1.WebServiceConfig_Autoscaling w).
Proof.
  eexists. split; [reflexivity|].
  destruct (web_config_keeps_blocks "example-web" testdata.example_web
              testdata.result_example_web _ eq_refl eq_refl) as (Hdomains & Hauto & _).
  split; [exact Hdomains|]. apply Hauto. by eexists.
Defined.

(** * Further properties of the dashboard's application model *)

(** X7: a build of the form survives the way to the specification and
    back.  Reading the contract build of a form build always succeeds and
    gives a build with the same contract build; a docker build comes back
    unchanged, and a pack build comes back with its context, its builder
    and its buildpacks in order, each buildpack under its identifier as
    display name. *)
Theorem clientBuild_round_trip (build : BuildOptions) :
  ∃ build',
    clientBuildFromProto (Some (clientBuildToProto build)) = Some build'
    ∧ clientBuildToProto build' = clientBuildToProto build
    ∧ match build with
      | BuildOptions_docker _ _ => build' = build
      | BuildOptions_pack context buildpacks builder =>
          build'
          = BuildOptions_pack context
              ((λ b, {| Buildpack_name := Buildpack_buildpack b;
                        Buildpack_buildpack := Buildpack_buildpack b |}) <$> buildpacks)
              builder
      end.
Proof.
  destruct build as [context buildpacks builder|context dockerfile];
    eexists; (split; [reflexivity|]); simpl; (split; [|by rewrite <- ?list_fmap_compose]).
  - f_equal. rewrite <- !list_fmap_compose. by apply list_fmap_ext.
  - done.
Qed.

(** X8: what the form keeps of a contract build.  A build is read exactly
    when its method is pack or docker; the method and the context are
    kept; a pack build keeps the builder and the buildpacks and loses the
    dockerfile, a docker build keeps the dockerfile and loses the builder
    and the buildpacks. *)
Theorem clientBuildFromProto_keeps (proto : porterv1.Build) :
  (is_Some (clientBuildFromProto (Some proto))
   ↔ porterv1.Build_Method proto = "pack" ∨ porterv1.Build_Method proto = "docker")
  ∧ ∀ build, clientBuildFromProto (Some proto) = Some build →
      let back := clientBuildToProto build in
      porterv1.Build_Method back = porterv1.Build_Method proto
      ∧ porterv1.Build_Context back = porterv1.Build_Context proto
      ∧ (porterv1.Build_Method proto = "pack" →
         porterv1.Build_Builder back = porterv1.Build_Builder proto
         ∧ porterv1.Build_Buildpacks back = porterv1.Build_Buildpacks proto
         ∧ porterv1.Build_Dockerfile back = "")
      ∧ (porterv1.Build_Method proto = "docker" →
         porterv1.Build_Dockerfile back = porterv1.Build_Dockerfile proto
         ∧ porterv1.Build_Builder back = ""
         ∧ porterv1.Build_Buildpacks back = []).
Proof.
  unfold clientBuildFromProto.
  destruct (String.eqb_spec (porterv1.Build_Method proto) "pack") as [Hpack|Hpack].
  - split; [split; [auto|by eexists]|].
    intros build [= <-]. simpl. split_and!; [done..| |by rewrite Hpack].
    intros _. split_and!; [done| |done].
    rewrite <- list_fmap_compose. rewrite <- (list_fmap_id (porterv1.Build_Buildpacks proto)) at 2.
    by apply list_fmap_ext.
  - destruct (String.eqb_spec (porterv1.Build_Method proto) "docker") as [Hdocker|Hdocker].
    + split; [split; [auto|by eexists]|].
      intros build [= <-]. simpl. split_and!; [done..|by rewrite Hdocker|done].
    + split; [|done]. split; [by intros [? ?]|by intros [?|?]].
Qed.

Lemma clientBuildFromProto_keeps_witness :
  let back :=
    clientBuildToProto
      (BuildOptions_pack "./" [ {| Buildpack_name := "heroku/nodejs";
                                   Buildpack_buildpack := "heroku/nodejs" |} ]
                         "heroku/buildpacks:20") in
  porterv1.Build_Method back = "pack"
  ∧ porterv1.Build_Dockerfile back = "".
Proof.
  destruct (clientBuildFromProto_keeps
              {| porterv1.Build_Context := "./"; porterv1.Build_Method := "pack";
                 porterv1.Build_Builder := "heroku/buildpacks:20";
                 porterv1.Build_Buildpacks := ["heroku/nodejs"];
                 porterv1.Build_Dockerfile := "./Dockerfile" |}) as [_ Hkeeps].
  destruct (Hkeeps _ eq_refl) as (Hmethod & _ & Hpack & _).
  split; [exact Hmethod|]. by apply Hpack.
Defined.



(** X10: the form state has one service for every service of the
    specification, and one more, the predeploy service, exactly when both
    the overrides and the specification have a predeploy.  Without a
    predeploy in the overrides, in particular without overrides, the form
    has no predeploy service even when the specification declares one. *)
Theorem clientAppFromProto_service_count
    (sourceLocked : SerializedService → string → bool)
    (proto : porterv1.PorterApp) (overrides : option DetectedServices)
    (app : ClientPorterApp) :
  clientAppFromProto sourceLocked proto overrides = Some app →
  length (ClientPorterApp_services app)
  = (size (porterv1.PorterApp_Services proto)
     + match overrides ≫= DetectedServices_predeploy, porterv1.PorterApp_Predeploy proto with
       | Some _, Some _ => 1
       | _, _ => 0
       end)%nat
  ∧ (overrides ≫= DetectedServices_predeploy = None →
     Forall (λ s, isPredeployService s = false) (ClientPorterApp_services app)).
Proof.
  intros (serialized & predeploy & Hserialized & -> & Hpredeploy)%clientAppFromProto_inv.
  destruct (serialized_services proto serialized Hserialized) as [_ Hall].
  assert (length serialized = size (porterv1.PorterApp_Services proto)) as Hlength.
  { apply mapM_Some, Forall2_length in Hserialized.
    by rewrite <- Hserialized, length_map_to_list. }
  split.
  - rewrite length_app, length_fmap, Hlength. f_equal.
    destruct (overrides ≫= DetectedServices_predeploy);
      [destruct (porterv1.PorterApp_Predeploy proto)|]; [|by subst..].
    by destruct Hpredeploy as (svc & _ & ->).
  - intros Hnone. rewrite Hnone in Hpredeploy. subst predeploy. rewrite app_nil_r.
    apply Forall_fmap. eapply Forall_impl; [exact Hall|].
    intros svc [_ Htype]. simpl. unfold isPredeployService.
    apply bool_decide_eq_false. by rewrite withOverride_type.
Qed.

(** The specification of the test document declares a predeploy job and
    three services; the form made from it without overrides has three
    services and none of them is the predeploy service. *)
Lemma clientAppFromProto_service_count_witness :
  ∃ app,
    clientAppFromProto examples.run_is_locked testdata.result_nobuild None = Some app
    ∧ is_Some (porterv1.PorterApp_Predeploy testdata.result_nobuild)
    ∧ length (ClientPorterApp_services app) = 3%nat
    ∧ Forall (λ s, isPredeployService s = false) (ClientPorterApp_services app).
Proof.
  destruct (clientAppFromProto examples.run_is_locked testdata.result_nobuild None)
    as [app|] eqn:Happ; [|vm_compute in Happ; discriminate].
  exists app.
  destruct (clientAppFromProto_service_count _ _ _ _ Happ) as [Hlength Hnone].
  split_and!; [reflexivity|by eexists| |by apply Hnone].
  rewrite Hlength. vm_compute. reflexivity.
Defined.



(** * Properties of the validate endpoint *)

Section validate.

Import porter_app.

Variable http_Request : Type.
Variable DecodeAndValidate : http_Request → option ValidatePorterAppRequest.
Variable base64_DecodeString : string → result (list Byte.byte).
Variable base64_EncodeToString : list Byte.byte → string.
Variable UnmarshalContractObject : list Byte.byte → result porterv1.PorterApp.
Variable MarshalContractObject : porterv1.PorterApp → result (list Byte.byte).
Variable ValidatePorterApp : ccp_ValidatePorterAppRequest → result (option connect_Response).

Local Abbreviation handler :=
  (ServeHTTP http_Request DecodeAndValidate base64_DecodeString base64_EncodeToString
     UnmarshalContractObject MarshalContractObject ValidatePorterApp).

(** X12: the handler contacts the cluster control plane at most once, and
    it does so exactly when the project has the validate-apply flag, the
    request decodes, its payload is not empty, is valid base64 and
    unmarshals to an application with a name.  The request it sends then
    carries that application, the project id and the deployment target and
    commit of the request.  A request that fails any of these checks never
    reaches the cluster control plane. *)
Theorem validate_calls_ccp_iff (project : Project) (r : http_Request) :
  let calls := (handler project r).2 in
  (length calls ≤ 1)%nat
  ∧ ∀ req, req ∈ calls
      ↔ Project_ValidateApplyV2 project = true
        ∧ ∃ request decoded,
            DecodeAndValidate r = Some request
            ∧ Base64AppProto request ≠ ""
            ∧ base64_DecodeString (Base64AppProto request) = Ok decoded
            ∧ UnmarshalContractObject decoded = Ok (ccp_App req)
            ∧ porterv1.PorterApp_Name (ccp_App req) ≠ ""
            ∧ ccp_ProjectId req = int64 (Project_ID project)
            ∧ ccp_DeploymentTargetId req = DeploymentTargetId request
            ∧ ccp_CommitSha req = CommitSHA request.
Proof.
  unfold ServeHTTP.
  destruct (Project_ValidateApplyV2 project); simpl;
    [|split; [lia|]; intros req; rewrite elem_of_nil; by intuition].
  destruct (DecodeAndValidate r) as [request|]; simpl;
    [|split; [lia|]; intros req; rewrite elem_of_nil;
      split; [done|]; by intros (_ & ? & ? & ? & _)].
  destruct (String.eqb_spec (Base64AppProto request) "") as [Hempty|Hempty]; simpl.
  { split; [lia|]. intros req. rewrite elem_of_nil.
    split; [done|]. intros (_ & ? & ? & [= <-] & ? & _). done. }
  destruct (base64_DecodeString (Base64AppProto request)) as [decoded|e] eqn:Hdecoded;
    simpl.
  2:{ split; [lia|]. intros req. rewrite elem_of_nil.
      split; [done|]. intros (_ & ? & ? & [= <-] & _ & ? & _). congruence. }
  destruct (UnmarshalContractObject decoded) as [appProto|e] eqn:Happ; simpl.
  2:{ split; [lia|]. intros req. rewrite elem_of_nil.
      split; [done|]. intros (_ & ? & ? & [= <-] & _ & ? & ? & _). congruence. }
  destruct (String.eqb_spec (porterv1.PorterApp_Name appProto) "") as [Hname|Hname];
    simpl.
  { split; [lia|]. intros req. rewrite elem_of_nil.
    split; [done|]. intros (_ & ? & ? & [= <-] & _ & ? & ? & ? & _). congruence. }
  split; [lia|]. intros req. rewrite list_elem_of_singleton. split.
  - intros ->. simpl. split; [done|]. exists request, decoded. by split_and!.
  - intros (_ & request' & decoded' & [= <-] & _ & Hd & Hu & _ & Hid & Ht & Hc).
    rewrite Hdecoded in Hd. injection Hd as <-.
    rewrite Happ in Hu. injection Hu as Hu.
    destruct req. simpl in *. by subst.
Qed.

(** X13: the class of every error the handler reports.  A request that is
    turned away before the cluster control plane is contacted gets
    Forbidden, when the project lacks the flag, or else the status 400; an
    error after the cluster control plane has been contacted, a failed
    call, an empty answer or a failed marshalling, gets the status 500. *)
Theorem validate_error_status (project : Project) (r : http_Request)
    (err : RequestError) :
  (handler project r).1 = HandleAPIError err →
  match (handler project r).2 with
  | [] =>
      if Project_ValidateApplyV2 project
      then ∃ e, err = NewErrPassThroughToClient e http_StatusBadRequest
      else ∃ e, err = NewErrForbidden e
  | _ => ∃ e, err = NewErrPassThroughToClient e http_StatusInternalServerError
  end.
Proof.
  unfold ServeHTTP, badRequest, internalServerError.
  destruct (Project_ValidateApplyV2 project); simpl; [|intros [= <-]; by eexists].
  destruct (DecodeAndValidate r) as [request|]; simpl; [|intros [= <-]; by eexists].
  destruct (String.eqb (Base64AppProto request) ""); simpl; [intros [= <-]; by eexists|].
  destruct (base64_DecodeString (Base64AppProto request)) as [decoded|e]; simpl;
    [|intros [= <-]; by eexists].
  destruct (UnmarshalContractObject decoded) as [appProto|e]; simpl;
    [|intros [= <-]; by eexists].
  destruct (String.eqb (porterv1.PorterApp_Name appProto) ""); simpl;
    [intros [= <-]; by eexists|].
  destruct (ValidatePorterApp _) as [[[[[[app|]]|]]|]|e]; simpl;
    try (intros [= <-]; by eexists).
  destruct (MarshalContractObject app) as [encoded|e]; simpl; [done|].
  intros [= <-]. by eexists.
Qed.

(** X14: the handler writes a result exactly when the cluster control
    plane, contacted once, answers with an application and that
    application marshals; the result is then the base64 text of the
    marshalled application of the answer, not of the request. *)
Theorem validate_result_iff (project : Project) (r : http_Request)
    (response : ValidatePorterAppResponse) :
  (handler project r).1 = WriteResult response
  ↔ ∃ req app encoded,
      (handler project r).2 = [req]
      ∧ ValidatePorterApp req
        = Ok (Some {| connect_Msg := Some {| ccp_Response_App := Some app |} |})
      ∧ MarshalContractObject app = Ok encoded
      ∧ response = {| ValidatedBase64AppProto := base64_EncodeToString encoded |}.
Proof.
  unfold ServeHTTP, badRequest, internalServerError.
  destruct (Project_ValidateApplyV2 project); simpl;
    [|split; [done|by intros (? & ? & ? & ? & _)]].
  destruct (DecodeAndValidate r) as [request|]; simpl;
    [|split; [done|by intros (? & ? & ? & ? & _)]].
  destruct (String.eqb (Base64AppProto request) ""); simpl;
    [split; [done|by intros (? & ? & ? & ? & _)]|].
  destruct (base64_DecodeString (Base64AppProto request)) as [decoded|e]; simpl;
    [|split; [done|by intros (? & ? & ? & ? & _)]].
  destruct (UnmarshalContractObject decoded) as [appProto|e]; simpl;
    [|split; [done|by intros (? & ? & ? & ? & _)]].
  destruct (String.eqb (porterv1.PorterApp_Name appProto) ""); simpl;
    [split; [done|by intros (? & ? & ? & ? & _)]|].
  split.
  - destruct (ValidatePorterApp _) as [[[[[[app|]]|]]|]|e] eqn:Hccp; simpl; try done.
    destruct (MarshalContractObject app) as [encoded|e] eqn:Hencoded; simpl; [|done].
    intros [= <-]. eexists _, app, encoded. by split_and!.
  - intros (req & app & encoded & [= <-] & -> & Hencoded & ->). simpl.
    by rewrite Hencoded.
Qed.

(** X15: the parser and the endpoint together.  A document without a name
    is accepted by the parser; when its specification is what the payload
    of a request unmarshals to, the endpoint turns the request away with
    the status 400, app proto name is empty, and does not contact the
    cluster control plane. *)
Theorem nameless_document_is_rejected_by_validate (doc : v2.PorterYAML)
    (proto : porterv1.PorterApp) (project : Project) (r : http_Request)
    (request : ValidatePorterAppRequest) (decoded : list Byte.byte) :
  v2.appProtoFromPorterYAML doc = Ok proto →
  v2.PorterYAML_Name doc = "" →
  Project_ValidateApplyV2 project = true →
  DecodeAndValidate r = Some request →
  Base64AppProto request ≠ "" →
  base64_DecodeString (Base64AppProto request) = Ok decoded →
  UnmarshalContractObject decoded = Ok proto →
  handler project r
  = (HandleAPIError
       (NewErrPassThroughToClient
          (telemetry_Error nil_error "app proto name is empty") http_StatusBadRequest),
     []).
Proof.
  intros (_ & _ & _ & Hname & _)%appProtoFromPorterYAML_Ok Hdoc Hflag Hrequest
    Hempty%String.eqb_neq Hdecoded Hproto.
  unfold ServeHTTP. rewrite Hflag, Hrequest. simpl.
  rewrite Hempty, Hdecoded, Hproto, Hname, Hdoc. reflexivity.
Qed.

End validate.

Lemma validate_calls_ccp_iff_witness :
  {| porter_app.ccp_ProjectId := 7;
     porter_app.ccp_DeploymentTargetId := "target";
     porter_app.ccp_CommitSha := "abc123";
     porter_app.ccp_App := testdata.result_nobuild |}
  ∈ (porter_app.example_ServeHTTP porter_app.example_project
       (porter_app.example_request "e30=")).2.
Proof.
  apply (validate_calls_ccp_iff (option porter_app.ValidatePorterAppRequest)
           porter_app.example_DecodeAndValidate porter_app.example_DecodeString
           porter_app.example_EncodeToString porter_app.example_Unmarshal
           porter_app.example_Marshal porter_app.example_ValidatePorterApp
           porter_app.example_project (porter_app.example_request "e30=")).
  split; [reflexivity|].
  eexists _, _. split_and!; [reflexivity|discriminate|reflexivity|reflexivity
                            |discriminate|reflexivity|reflexivity|reflexivity].
Defined.

Lemma validate_error_status_witness :
  ∃ e, porter_app.NewErrPassThroughToClient
         (telemetry_Error (errors_New "illegal base64 data") "error decoding base  yaml")
         400
       = porter_app.NewErrPassThroughToClient e porter_app.http_StatusBadRequest.
Proof.
  exact (validate_error_status (option porter_app.ValidatePorterAppRequest)
           porter_app.example_DecodeAndValidate porter_app.example_DecodeString
           porter_app.example_EncodeToString porter_app.example_Unmarshal
           porter_app.example_Marshal porter_app.example_ValidatePorterApp
           porter_app.example_project (porter_app.example_request "not base64")
           _ eq_refl).
Defined.

Lemma nameless_document_is_rejected_by_validate_witness :
  porter_app.example_ServeHTTP porter_app.example_project
    (porter_app.example_request "e30")
  = (porter_app.HandleAPIError
       (porter_app.NewErrPassThroughToClient
          (telemetry_Error nil_error "app proto name is empty")
          porter_app.http_StatusBadRequest),
     []).
Proof.
  eapply (nameless_document_is_rejected_by_validate
            (option porter_app.ValidatePorterAppRequest)
            porter_app.example_DecodeAndValidate porter_app.example_DecodeString
            porter_app.example_EncodeToString porter_app.example_Unmarshal
            porter_app.example_Marshal porter_app.example_ValidatePorterApp
            testdata.no_name);
    [vm_compute; reflexivity|reflexivity|reflexivity|reflexivity|discriminate
    |reflexivity|reflexivity].
Defined.

(** * Properties of building and pushing an image *)

Lemma strings_Contains_empty (s : string) : strings_Contains s "" = true.
Proof. by destruct s. Qed.

Section build_properties.

Import cli_v2.

Variable ListRegistries : Z → cli_v2.error + option (list Registry).
Variable CreateRepository : Z → Z → string → option cli_v2.error.
Variable NewAgentWithAuthGetter : Z → option cli_v2.error.
Variable BuildLocal : BuildOpts → option cli_v2.error.
Variable PackBuild : BuildOpts → BuildConfig → string → option cli_v2.error.
Variable PushImage : string → option cli_v2.error.
Variable filepath_Abs : string → cli_v2.error + string.
Variable filepath_IsAbs : string → bool.
Variable filepath_Join : string → string → string.
Variable filepath_Rel : string → string → cli_v2.error + string.
Variable os_PathSeparator : ascii.

Local Abbreviation createRepository :=
  (createImageRepositoryIfNotExists ListRegistries CreateRepository).

Local Abbreviation run_build :=
  (build ListRegistries CreateRepository NewAgentWithAuthGetter BuildLocal PackBuild
     PushImage filepath_Abs filepath_IsAbs filepath_Join filepath_Rel os_PathSeparator).

Local Ltac run :=
  unfold createImageRepositoryIfNotExists, build, wrapped, checked, check, perform,
    mbind, M_bind, cli_v2.bind, mret, M_ret, ret, fail.

Lemma createRepository_run (projectID : Z) (imageURL : string) (trace : list call) :
  createRepository projectID imageURL trace
  = (if Z.eqb projectID 0 then (inl (cli_v2.errors_New "must specify a project id"), trace)
    else if String.eqb imageURL "" then
      (inl (cli_v2.errors_New "must specify an image url"), trace)
    else
      match ListRegistries projectID with
      | inl e =>
          (inl (fmt_Errorf_w "error calling list registries: %w" e),
           trace ++ [client_ListRegistries projectID])
      | inr None =>
          (inl (cli_v2.errors_New "registry list is nil"),
           trace ++ [client_ListRegistries projectID])
      | inr (Some []) =>
          (inl (cli_v2.errors_New "no registries found for project"),
           trace ++ [client_ListRegistries projectID])
      | inr (Some regList) =>
          match matchingRegistry imageURL regList with
          | Some registry =>
              if Z.eqb (Registry_ID registry) 0 then
                (inl (cli_v2.errors_New "no registries match url"),
                 trace ++ [client_ListRegistries projectID])
              else
                (match CreateRepository projectID (Registry_ID registry) imageURL with
                 | Some e => inl (fmt_Errorf_w "error creating repository: %w" e)
                 | None => inr tt
                 end,
                 trace ++ [client_ListRegistries projectID;
                           client_CreateRepository projectID (Registry_ID registry)
                             imageURL])
          | None =>
              (inl (cli_v2.errors_New "no registries match url"),
               trace ++ [client_ListRegistries projectID])
          end
      end)%list.
Proof.
  run. repeat case_match; simpl in *; simplify_eq; rewrite <- ?app_assoc;
    try done; congruence.
Qed.

(** X16: a repository is created only in the first registry of the project
    that matches the image.  A run of createImageRepositoryIfNotExists
    calls CreateRepository exactly when the project id is not 0, the image
    URL is not empty, the registries can be listed and the first registry
    in the list whose URL, without the scheme, occurs in the image URL has
    an id other than 0; the call then names that registry and the image
    URL.  Registries after the first match are not considered. *)
Theorem repository_is_created_in_the_first_match (projectID : Z) (imageURL : string)
    (pid rid : Z) (uri : string) :
  client_CreateRepository pid rid uri ∈ (createRepository projectID imageURL []).2
  ↔ pid = projectID ∧ uri = imageURL ∧ projectID ≠ 0 ∧ imageURL ≠ "" ∧ rid ≠ 0
    ∧ ∃ regList registry,
        ListRegistries projectID = inr (Some regList)
        ∧ matchingRegistry imageURL regList = Some registry
        ∧ Registry_ID registry = rid.
Proof.
  rewrite createRepository_run.
  destruct (Z.eqb_spec projectID 0) as [Hpid|Hpid]; simpl.
  { rewrite elem_of_nil. by intuition. }
  destruct (String.eqb_spec imageURL "") as [Hurl|Hurl]; simpl.
  { rewrite elem_of_nil. by intuition. }
  destruct (ListRegistries projectID) as [e|[regList|]] eqn:Hlist; simpl.
  1,3: rewrite list_elem_of_singleton; split; [done|];
       by intros (_ & _ & _ & _ & _ & ? & ? & ? & _).
  destruct (matchingRegistry imageURL regList) as [registry|] eqn:Hmatch.
  - destruct (Z.eqb_spec (Registry_ID registry) 0) as [Hrid|Hrid].
    + assert (client_CreateRepository pid rid uri
              ∈ [client_ListRegistries projectID] ↔ False) as Hno
        by (rewrite list_elem_of_singleton; by intuition).
      destruct regList; simpl; rewrite Hno; (split; [done|]);
        intros (_ & _ & _ & _ & ? & ? & ? & [= <-] & Hm & ?);
        rewrite Hmatch in Hm; injection Hm as <-; congruence.
    + destruct regList as [|registry0 regList0]; [done|]. simpl.
      rewrite elem_of_cons, list_elem_of_singleton. split.
      * intros [?|[= -> -> ->]]; [done|]. split_and!; [done..|]. by eexists _, _.
      * intros (-> & -> & _ & _ & _ & ? & ? & [= <-] & Hm & <-).
        rewrite Hmatch in Hm. injection Hm as <-. by right.
  - assert (client_CreateRepository pid rid uri
            ∈ [client_ListRegistries projectID] ↔ False) as Hno
      by (rewrite list_elem_of_singleton; by intuition).
    destruct regList; simpl; rewrite Hno; (split; [done|]);
      intros (_ & _ & _ & _ & _ & ? & ? & [= <-] & Hm & _); congruence.
Qed.


(** X17: a registry is matched by substring, so a registry without a URL,
    or with the scheme alone as URL, matches every image.  When such a
    registry comes first in the list of the project, the repository of any
    image is created in it, whatever the registries after it are. *)
Theorem registry_without_url_matches_every_image (projectID : Z) (imageURL : string)
    (registry : Registry) (rest : list Registry) :
  projectID ≠ 0 → imageURL ≠ "" →
  ListRegistries projectID = inr (Some (registry :: rest)) →
  Registry_URL registry = "" ∨ Registry_URL registry = "https://" →
  Registry_ID registry ≠ 0 →
  (createRepository projectID imageURL []).2
  = [client_ListRegistries projectID;
     client_CreateRepository projectID (Registry_ID registry) imageURL].
Proof.
  intros Hpid%Z.eqb_neq Hurl%String.eqb_neq Hlist Hblank Hrid%Z.eqb_neq.
  rewrite createRepository_run, Hpid, Hurl, Hlist.
  assert (matchingRegistry imageURL (registry :: rest) = Some registry) as ->.
  { unfold matchingRegistry. simpl.
    assert (strings_TrimPrefix (Registry_URL registry) "https://" = "") as ->
      by by destruct Hblank as [-> | ->].
    by rewrite strings_Contains_empty. }
  by rewrite Hrid.
Qed.

Lemma build_run (inp : buildInput) :
  run_build inp []
  = (if Z.eqb (ProjectID inp) 0 then
       (inl (cli_v2.errors_New "must specify a project id"), [])
     else if String.eqb (ImageTag inp) "" then
       (inl (cli_v2.errors_New "must specify an image tag"), [])
     else if String.eqb (RepositoryURL inp) "" then
       (inl (cli_v2.errors_New "must specify a registry url"), [])
     else
       let imageURL := strings_TrimPrefix (RepositoryURL inp) "https://" in
       let image := imageURL +:+ ":" +:+ ImageTag inp in
       let pushed (trace : list call) :=
         (match PushImage image with
          | Some e =>
              inl (fmt_Errorf_w ("error pushing image url: %w" +:+ String "010" "") e)
          | None => inr tt
          end, trace ++ [dockerAgent_PushImage image]) in
       match createRepository (ProjectID inp) imageURL [] with
       | (inl e, trace) =>
           (inl (fmt_Errorf_w "error creating image repository: %w" e), trace)
       | (inr _, trace) =>
           let trace := trace ++ [docker_NewAgentWithAuthGetter (ProjectID inp)] in
           match NewAgentWithAuthGetter (ProjectID inp) with
           | Some e => (inl (fmt_Errorf_w "error getting docker agent: %w" e), trace)
           | None =>
               if String.eqb (BuildMethod inp) buildMethodDocker then
                 match filepath_Abs "." with
                 | inl e =>
                     (inl (fmt_Errorf_w "error getting absolute path: %w" e), trace)
                 | inr basePath =>
                     match resolveDockerPaths filepath_Abs filepath_IsAbs filepath_Join
                             filepath_Rel os_PathSeparator basePath (BuildContext inp)
                             (Dockerfile inp) with
                     | inl e =>
                         (inl (fmt_Errorf_w "error resolving docker paths: %w" e), trace)
                     | inr (buildCtx, dockerfilePath, isDockerfileInCtx) =>
                         let opts :=
                           {| BuildOpts_ImageRepo := RepositoryURL inp;
                              BuildOpts_Tag := ImageTag inp;
                              BuildOpts_CurrentTag := CurrentImageTag inp;
                              BuildOpts_BuildContext := buildCtx;
                              BuildOpts_DockerfilePath := dockerfilePath;
                              BuildOpts_IsDockerfileInCtx := isDockerfileInCtx |} in
                         match BuildLocal opts with
                         | Some e =>
                             (inl (fmt_Errorf_w "error building image with docker: %w" e),
                              trace ++ [dockerAgent_BuildLocal opts])
                         | None => pushed (trace ++ [dockerAgent_BuildLocal opts])
                         end
                     end
                 end
               else if String.eqb (BuildMethod inp) buildMethodPack then
                 let opts :=
                   {| BuildOpts_ImageRepo := imageURL;
                      BuildOpts_Tag := ImageTag inp;
                      BuildOpts_CurrentTag := "";
                      BuildOpts_BuildContext := BuildContext inp;
                      BuildOpts_DockerfilePath := "";
                      BuildOpts_IsDockerfileInCtx := false |} in
                 let buildConfig :=
                   {| BuildConfig_Builder := Builder inp;
                      BuildConfig_Buildpacks := BuildPacks inp |} in
                 match PackBuild opts buildConfig "" with
                 | Some e =>
                     (inl (fmt_Errorf_w "error building image with pack: %w" e),
                      trace ++ [packAgent_Build opts buildConfig ""])
                 | None => pushed (trace ++ [packAgent_Build opts buildConfig ""])
                 end
               else
                 (inl (fmt_Errorf_s "invalid build method: %s" (BuildMethod inp)), trace)
           end
       end)%list.
Proof.
  unfold build.
  destruct (Z.eqb (ProjectID inp) 0); [done|].
  destruct (String.eqb (ImageTag inp) ""); [done|].
  destruct (String.eqb (RepositoryURL inp) ""); [done|].
  cbv zeta.
  unfold wrapped, checked, check, perform, mbind, M_bind, cli_v2.bind, mret, M_ret,
    ret, fail.
  destruct (createRepository _ _ _) as [[e|[]] trace]; [done|].
  destruct (NewAgentWithAuthGetter _); [done|].
  destruct (String.eqb (BuildMethod inp) buildMethodDocker).
  - destruct (filepath_Abs "."); [done|].
    destruct (resolveDockerPaths _ _ _ _ _ _ _ _) as [e|[[buildCtx dockerfilePath] flag]];
      [done|].
    destruct (BuildLocal _); [done|]. by destruct (PushImage _).
  - destruct (String.eqb (BuildMethod inp) buildMethodPack); [|done].
    destruct (PackBuild _ _ _); [done|]. by destruct (PushImage _).
Qed.

Lemma createRepository_trace (projectID : Z) (imageURL : string) :
  let r := createRepository projectID imageURL [] in
  (r.2 = [] ∧ (projectID = 0 ∨ imageURL = "") ∧ ∃ e, r.1 = inl e)
  ∨ (r.2 = [client_ListRegistries projectID] ∧ projectID ≠ 0 ∧ imageURL ≠ ""
     ∧ ∃ e, r.1 = inl e)
  ∨ (∃ rid, r.2 = [client_ListRegistries projectID;
                   client_CreateRepository projectID rid imageURL]
            ∧ projectID ≠ 0 ∧ imageURL ≠ ""
            ∧ (r.1 = inr tt ↔ CreateRepository projectID rid imageURL = None)).
Proof.
  cbv zeta. rewrite createRepository_run.
  destruct (Z.eqb_spec projectID 0) as [Hpid|Hpid]; [left; eauto|].
  destruct (String.eqb_spec imageURL "") as [Hurl|Hurl]; [left; eauto|].
  destruct (ListRegistries projectID) as [e|[[|registry0 regList0]|]];
    [right; left; simpl; eauto.. | | right; left; simpl; eauto].
  destruct (matchingRegistry imageURL _) as [registry|];
    [|right; left; simpl; eauto].
  destruct (Z.eqb (Registry_ID registry) 0); [right; left; simpl; eauto|].
  right; right. exists (Registry_ID registry). simpl. split_and!; [done..|].
  by destruct (CreateRepository _ _ _).
Qed.

(** X18: the calls of a successful build.  When build returns without an
    error it has made exactly five calls, in this order: it listed the
    registries, created the repository of the image, got the docker agent,
    built the image once, with docker or with pack as the method says, and
    pushed the image under its URL without the scheme and its tag.  The
    pack build is given the URL without the scheme, the docker build the
    URL as it was put in. *)
Theorem successful_build_calls (inp : buildInput) :
  (run_build inp []).1 = inr tt →
  let imageURL := strings_TrimPrefix (RepositoryURL inp) "https://" in
  ProjectID inp ≠ 0 ∧ ImageTag inp ≠ "" ∧ imageURL ≠ ""
  ∧ ∃ rid built,
      (run_build inp []).2
      = [client_ListRegistries (ProjectID inp);
         client_CreateRepository (ProjectID inp) rid imageURL;
         docker_NewAgentWithAuthGetter (ProjectID inp);
         built;
         dockerAgent_PushImage (imageURL +:+ ":" +:+ ImageTag inp)]
      ∧ ((BuildMethod inp = "docker"
          ∧ ∃ opts, built = dockerAgent_BuildLocal opts
                    ∧ BuildOpts_ImageRepo opts = RepositoryURL inp
                    ∧ BuildOpts_Tag opts = ImageTag inp
                    ∧ BuildOpts_CurrentTag opts = CurrentImageTag inp)
         ∨ (BuildMethod inp = "pack"
            ∧ built
              = packAgent_Build
                  {| BuildOpts_ImageRepo := imageURL;
                     BuildOpts_Tag := ImageTag inp;
                     BuildOpts_CurrentTag := "";
                     BuildOpts_BuildContext := BuildContext inp;
                     BuildOpts_DockerfilePath := "";
                     BuildOpts_IsDockerfileInCtx := false |}
                  {| BuildConfig_Builder := Builder inp;
                     BuildConfig_Buildpacks := BuildPacks inp |} "")).
Proof.
  rewrite build_run. cbv zeta.
  destruct (Z.eqb_spec (ProjectID inp) 0) as [Hpid|Hpid]; [done|].
  destruct (String.eqb_spec (ImageTag inp) "") as [Htag|Htag]; [done|].
  destruct (String.eqb (RepositoryURL inp) ""); [done|].
  pose proof (createRepository_trace (ProjectID inp)
                (strings_TrimPrefix (RepositoryURL inp) "https://")) as Hrepo.
  cbv zeta in Hrepo.
  destruct (createRepository _ _ _) as [[e|[]] trace]; [done|]. simpl in Hrepo.
  destruct Hrepo as [(_ & _ & [e He])|[(_ & _ & _ & [e He])|(rid & -> & _ & Hurl & _)]];
    [done..|].
  destruct (NewAgentWithAuthGetter _); [done|].
  destruct (String.eqb_spec (BuildMethod inp) buildMethodDocker) as [Hdocker|Hdocker].
  - destruct (filepath_Abs "."); [done|].
    destruct (resolveDockerPaths _ _ _ _ _ _ _ _) as [e|[[buildCtx dockerfilePath] flag]];
      [done|].
    destruct (BuildLocal _); [done|]. simpl. intros _.
    split_and!; [done..|]. eexists rid, _. split; [reflexivity|].
    left. split; [done|]. by eexists.
  - destruct (String.eqb_spec (BuildMethod inp) buildMethodPack) as [Hpack|Hpack]; [|done].
    destruct (PackBuild _ _ _); [done|]. simpl. intros _.
    split_and!; [done..|]. eexists rid, _. split; [reflexivity|]. by right.
Qed.

(** X19: a build method other than docker and pack is found late.  Such a
    build always fails and never builds or pushes anything; but the method
    is looked at only after the first steps, so that when the failure is
    the error invalid build method, the registries have been listed, the
    repository of the image has been created and the docker agent has been
    set up. *)
Theorem invalid_build_method_is_found_late (inp : buildInput) :
  BuildMethod inp ≠ "docker" → BuildMethod inp ≠ "pack" →
  (∃ e, (run_build inp []).1 = inl e)
  ∧ (∀ c, c ∈ (run_build inp []).2 →
       match c with
       | dockerAgent_BuildLocal _ | packAgent_Build _ _ _ | dockerAgent_PushImage _ => False
       | _ => True
       end)
  ∧ ((run_build inp []).1
     = inl (fmt_Errorf_s "invalid build method: %s" (BuildMethod inp)) →
     ∃ rid,
       (run_build inp []).2
       = [client_ListRegistries (ProjectID inp);
          client_CreateRepository (ProjectID inp) rid
            (strings_TrimPrefix (RepositoryURL inp) "https://");
          docker_NewAgentWithAuthGetter (ProjectID inp)]
       ∧ CreateRepository (ProjectID inp) rid
           (strings_TrimPrefix (RepositoryURL inp) "https://") = None).
Proof.
  intros Hdocker%String.eqb_neq Hpack%String.eqb_neq.
  rewrite build_run. cbv zeta. unfold buildMethodDocker, buildMethodPack.
  rewrite Hdocker, Hpack.
  destruct (Z.eqb (ProjectID inp) 0);
    [split_and!; [by eexists|by intros c ?%elem_of_nil|done]|].
  destruct (String.eqb (ImageTag inp) "");
    [split_and!; [by eexists|by intros c ?%elem_of_nil|done]|].
  destruct (String.eqb (RepositoryURL inp) "");
    [split_and!; [by eexists|by intros c ?%elem_of_nil|done]|].
  pose proof (createRepository_trace (ProjectID inp)
                (strings_TrimPrefix (RepositoryURL inp) "https://")) as Hrepo.
  cbv zeta in Hrepo.
  destruct (createRepository _ _ _) as [[e|[]] trace]; simpl in Hrepo.
  - split_and!; [by eexists| |done].
    intros c Hc. simpl in Hc.
    destruct Hrepo as [(-> & _)|[(-> & _)|(rid & -> & _)]];
      set_unfold; by intuition subst.
  - destruct Hrepo as [(_ & _ & [e He])|[(_ & _ & _ & [e He])|(rid & -> & _ & _ & Hcreated)]];
      [done..|].
    destruct (NewAgentWithAuthGetter _); simpl.
    + split_and!; [by eexists| |done].
      intros c Hc. set_unfold. by intuition subst.
    + split_and!; [by eexists| |].
      * intros c Hc. set_unfold. by intuition subst.
      * intros _. exists rid. split; [done|]. by apply Hcreated.
Qed.

(** X20: the checks of build that come before any call.  A run makes no
    call at all exactly when the project id is 0, the image tag is empty, or
    the registry URL is empty once the scheme is taken off, which includes
    the URL that is the scheme alone; the run then ends in an error. *)
Theorem build_checks_before_calling (inp : buildInput) :
  ((run_build inp []).2 = []
   ↔ ProjectID inp = 0 ∨ ImageTag inp = ""
     ∨ strings_TrimPrefix (RepositoryURL inp) "https://" = "")
  ∧ ((run_build inp []).2 = [] → ∃ e, (run_build inp []).1 = inl e).
Proof.
  rewrite build_run. cbv zeta.
  destruct (Z.eqb_spec (ProjectID inp) 0) as [Hpid|Hpid];
    [split; [by intuition|by eexists]|].
  destruct (String.eqb_spec (ImageTag inp) "") as [Htag|Htag];
    [split; [by intuition|by eexists]|].
  destruct (String.eqb_spec (RepositoryURL inp) "") as [Hurl|Hurl].
  { split; [|by eexists]. split; [|done]. intros _. right; right. by rewrite Hurl. }
  pose proof (createRepository_trace (ProjectID inp)
                (strings_TrimPrefix (RepositoryURL inp) "https://")) as Hrepo.
  cbv zeta in Hrepo.
  destruct (createRepository _ _ _) as [[e|[]] trace]; simpl in Hrepo.
  - destruct Hrepo as [(-> & [?|Hempty] & _)|[(-> & _ & Hempty & _)|(rid & -> & _ & Hempty & _)]];
      simpl; (split; [|by eexists]); by intuition.
  - destruct Hrepo as [(_ & _ & [e He])|[(_ & _ & _ & [e He])|(rid & -> & _ & Hempty & _)]];
      [done..|].
    assert (∀ r : (cli_v2.error + unit) * list call,
              (∃ rest, r.2 = client_ListRegistries (ProjectID inp) :: rest) →
              (r.2 = []
               ↔ ProjectID inp = 0 ∨ ImageTag inp = ""
                 ∨ strings_TrimPrefix (RepositoryURL inp) "https://" = "")
              ∧ (r.2 = [] → ∃ e, r.1 = inl e)) as Hcalls.
    { intros r [rest ->]. split; [|done]. split; [done|]. by intuition. }
    apply Hcalls.
    destruct (NewAgentWithAuthGetter _); [by eexists|].
    destruct (String.eqb (BuildMethod inp) buildMethodDocker).
    + destruct (filepath_Abs "."); [by eexists|].
      destruct (resolveDockerPaths _ _ _ _ _ _ _ _) as [e|[[buildCtx dockerfilePath] flag]];
        [by eexists|].
      destruct (BuildLocal _); by eexists.
    + destruct (String.eqb (BuildMethod inp) buildMethodPack); [|by eexists].
      destruct (PackBuild _ _ _); by eexists.
Qed.

End build_properties.

Lemma registry_without_url_matches_every_image_witness :
  (cli_v2.createImageRepositoryIfNotExists cli_examples.ListRegistries
     cli_examples.CreateRepository 7 "gcr.io/porter/js-test-app" []).2
  = [cli_v2.client_ListRegistries 7;
     cli_v2.client_CreateRepository 7 4 "gcr.io/porter/js-test-app"].
Proof.
  apply (registry_without_url_matches_every_image cli_examples.ListRegistries
           cli_examples.CreateRepository 7 "gcr.io/porter/js-test-app"
           cli_examples.blank_registry [cli_examples.gcr_registry]);
    [lia|discriminate|reflexivity|by left|simpl; lia].
Defined.

Lemma successful_build_calls_witness :
  ∃ rid built,
    (cli_examples.run_build cli_examples.pack_input []).2
    = [cli_v2.client_ListRegistries 7;
       cli_v2.client_CreateRepository 7 rid "gcr.io/porter/js-test-app";
       cli_v2.docker_NewAgentWithAuthGetter 7;
       built;
       cli_v2.dockerAgent_PushImage "gcr.io/porter/js-test-app:abc123"].
Proof.
  destruct (successful_build_calls cli_examples.ListRegistries
              cli_examples.CreateRepository cli_examples.NewAgentWithAuthGetter
              cli_examples.BuildLocal cli_examples.PackBuild cli_examples.PushImage
              cli_examples.filepath_Abs cli_examples.filepath_IsAbs
              cli_examples.filepath_Join cli_examples.filepath_Rel "/"%char
              cli_examples.pack_input eq_refl)
    as (_ & _ & _ & rid & built & Htrace & _).
  exists rid, built. exact Htrace.
Defined.

Lemma invalid_build_method_is_found_late_witness :
  ∃ rid,
    (cli_examples.run_build cli_examples.registry_input []).2
    = [cli_v2.client_ListRegistries 7;
       cli_v2.client_CreateRepository 7 rid "gcr.io/porter/js-test-app";
       cli_v2.docker_NewAgentWithAuthGetter 7].
Proof.
  destruct (invalid_build_method_is_found_late cli_examples.ListRegistries
              cli_examples.CreateRepository cli_examples.NewAgentWithAuthGetter
              cli_examples.BuildLocal cli_examples.PackBuild cli_examples.PushImage
              cli_examples.filepath_Abs cli_examples.filepath_IsAbs
              cli_examples.filepath_Join cli_examples.filepath_Rel "/"%char
              cli_examples.registry_input)
    as (_ & _ & Hlate); [discriminate..|].
  destruct (Hlate eq_refl) as (rid & Htrace & _).
  exists rid. exact Htrace.
Defined.

(** The registry URL that is the scheme alone passes the check of the
    registry URL and is turned away before any call all the same. *)
Lemma build_checks_before_calling_witness :
  (cli_examples.run_build cli_examples.scheme_only_input []).2 = []
  ∧ cli_v2.RepositoryURL cli_examples.scheme_only_input ≠ "".
Proof.
  split; [|discriminate].
  apply (build_checks_before_calling cli_examples.ListRegistries
           cli_examples.CreateRepository cli_examples.NewAgentWithAuthGetter
           cli_examples.BuildLocal cli_examples.PackBuild cli_examples.PushImage
           cli_examples.filepath_Abs cli_examples.filepath_IsAbs
           cli_examples.filepath_Join cli_examples.filepath_Rel "/"%char
           cli_examples.scheme_only_input).
  right; right. reflexivity.
Defined.
